(** * pubmed_scraper: a shallow embedding of [pubmed_scraper.py]

    The development follows the source file top to bottom:

    - [Soup]    the part of BeautifulSoup the script relies on
                ([find], [find_all], [.text], truthiness of a tag);
    - [Py]      exceptions, the error monad, [range] and loops with
                early [return];
    - [Scraper] [get_total_records], [fetch_articles_in_batches] and
                [save_to_csv];
    - [Main]    the script's entry point, on the parsed command line;
    - the theorems about them.

    The remote service is an oracle: a function from the parameters of a
    request to the parsed document of the response.  A transport failure
    (an exception escaping [requests.get]) aborts the run before any of
    the code below it is reached and is not part of the model. *)

From Stdlib Require Import String DecimalString ZArith List Bool Lia.
Import ListNotations.

Set Warnings "-register-all".

Local Open Scope string_scope.
Local Open Scope list_scope.
Local Open Scope Z_scope.

(* ================================================================= *)
(** ** BeautifulSoup documents *)

Module Soup.

(** A parsed document is a tree of tags and strings.  Attributes and
    comments play no role in the script: [find] and [find_all] are only
    called with a tag name, and [.text] skips comments. *)
Inductive node : Type :=
| Tag (name : string) (contents : list node)
| NavigableString (s : string).

(** [tag.descendants]: every node below [n], in document order. *)
Fixpoint descendants (n : node) : list node :=
  match n with
  | Tag _ cs => flat_map (fun c => c :: descendants c) cs
  | NavigableString _ => []
  end.

Definition is_tag (nm : string) (n : node) : bool :=
  match n with
  | Tag nm' _ => String.eqb nm nm'
  | NavigableString _ => false
  end.

(** [tag.find_all(name)]: recursive, document order. *)
Definition find_all (nm : string) (n : node) : list node :=
  filter (is_tag nm) (descendants n).

(** [tag.find(name)] is [find_all(name, limit=1)], first hit or [None]. *)
Definition find (nm : string) (n : node) : option node :=
  hd_error (find_all nm n).

Definition strings_of (n : node) : list string :=
  flat_map (fun d => match d with
                     | NavigableString s => [s]
                     | Tag _ _ => []
                     end) (descendants n).

(** [tag.text]: the strings below the tag, concatenated. *)
Definition text (n : node) : string :=
  match n with
  | NavigableString s => s
  | Tag _ _ => String.concat "" (strings_of n)
  end.

(** [bool(x)] for [x] the result of a [find]: [Tag.__bool__] is always
    true, [None] is false. *)
Definition truthy (o : option node) : bool :=
  match o with
  | Some _ => true
  | None => false
  end.

End Soup.

(* ================================================================= *)
(** ** Python control: exceptions, [range], [for] with [return] *)

Module Py.

Inductive exn : Type :=
| AttributeError   (* attribute access on [None] *)
| ValueError       (* [int] of a non-number, [range] with step 0 *)
| OSError.         (* [open] of a path that cannot be written *)

Inductive result (A : Type) : Type :=
| Ok (a : A)
| Raise (e : exn).
Arguments Ok {A} a.
Arguments Raise {A} e.

Definition bind {A B : Type} (m : result A) (k : A -> result B) : result B :=
  match m with
  | Ok a => k a
  | Raise e => Raise e
  end.

Notation "x <- m ;; k" := (bind m (fun x => k))
  (at level 61, m at next level, right associativity).

(** [x.text] and [x.find(name)] where [x] may be [None]. *)
Definition attr_text (o : option Soup.node) : result string :=
  match o with
  | Some t => Ok (Soup.text t)
  | None => Raise AttributeError
  end.

Definition attr_find (o : option Soup.node) (nm : string)
  : result (option Soup.node) :=
  match o with
  | Some t => Ok (Soup.find nm t)
  | None => Raise AttributeError
  end.

(** Length of [range(lo, hi, step)] for [step > 0]. *)
Definition range_length (lo hi step : Z) : Z :=
  if lo <? hi then (hi - lo - 1) / step + 1 else 0.

(** [range(start, stop, step)]; a zero step raises [ValueError]. *)
Definition range (start stop step : Z) : result (list Z) :=
  if step =? 0 then Raise ValueError
  else
    let n := if 0 <? step then range_length start stop step
             else range_length stop start (- step) in
    Ok (map (fun i => start + Z.of_nat i * step) (seq 0 (Z.to_nat n))).

(** What one iteration of a loop body does to the loop: fall through to
    the next element, or leave the function through the [return]
    statement at [site]. *)
Inductive flow (R S : Type) : Type :=
| Next (s : S)
| Return (site : R) (s : S).
Arguments Next {R S} s.
Arguments Return {R S} site s.

Definition state_of {R S : Type} (f : flow R S) : S :=
  match f with
  | Next s => s
  | Return _ s => s
  end.

Section ForEach.
Context {R S A : Type}.
Variable body : S -> A -> result (flow R S).

(** [for x in xs: body] *)
Fixpoint for_each (st : S) (xs : list A) : result (flow R S) :=
  match xs with
  | [] => Ok (Next st)
  | x :: xs' =>
      match body st x with
      | Ok (Next st') => for_each st' xs'
      | Ok (Return site st') => Ok (Return site st')
      | Raise e => Raise e
      end
  end.

(** The states the loop passes through: one per completed iteration. *)
Fixpoint for_states (st : S) (xs : list A) : list S :=
  match xs with
  | [] => []
  | x :: xs' =>
      match body st x with
      | Ok (Next st') => st' :: for_states st' xs'
      | _ => []
      end
  end.
End ForEach.

End Py.

Import Soup Py.

(* ================================================================= *)
(** ** The script *)

Module Scraper.

(** *** [get_total_records] *)

Inductive pyval : Type :=
| PStr (s : string)
| PInt (z : Z).

(** A [params] dict, in insertion order. *)
Definition params : Type := list (string * pyval).

Definition esearch_params (api_key keyword start_date : string)
                          (end_date : option string) : params :=
  let params :=
    [ ("db", PStr "pubmed");
      ("retmode", PStr "xml");
      ("term", PStr keyword);
      ("mindate", PStr start_date);
      ("retmax", PInt 0);
      ("api_key", PStr api_key);
      ("usehistory", PStr "y") ] in
  match end_date with
  | Some d => if String.eqb d "" then params
              else params ++ [("maxdate", PStr d)]
  | None => params
  end.

Record session : Type := mkSession {
  count : Z;
  web_env : string;
  query_key : string
}.

Section GetTotalRecords.
(** The search endpoint: request parameters to parsed response. *)
Variable esearch : params -> node.
(** Python's built-in [int] on a string; [None] stands for the
    [ValueError] it raises on a string that is not an integer. *)
Variable py_int : string -> option Z.

Definition int_of (s : string) : result Z :=
  match py_int s with
  | Some z => Ok z
  | None => Raise ValueError
  end.

(** Lines 22-27, on the response [soup]. *)
Definition parse_session (soup : node) : result session :=
  count_text <- attr_text (find "Count" soup) ;;
  count <- int_of count_text ;;
  web_env <- attr_text (find "WebEnv" soup) ;;
  query_key <- attr_text (find "QueryKey" soup) ;;
  Ok (mkSession count web_env query_key).

(** The function returns its outcome together with the requests it
    sent. *)
Definition get_total_records (api_key keyword start_date : string)
                             (end_date : option string)
  : list params * result session :=
  let params := esearch_params api_key keyword start_date end_date in
  let soup := esearch params in
  ([params], parse_session soup).
End GetTotalRecords.

(** *** [fetch_articles_in_batches] *)

(** One output row: a Python list of strings. *)
Definition row : Type := list string.

Record efetch_params : Type := mkParams {
  p_db : string;
  p_retmode : string;
  p_query_key : string;
  p_WebEnv : string;
  p_retstart : Z;
  p_retmax : Z;
  p_api_key : string
}.

(** The local variables that change during a run, and the calls made on
    the outside world: [pbar] lists the arguments of the successive
    [pbar.update] calls, [requests] the fetch requests sent, oldest
    first. *)
Record state : Type := mkState {
  article_data : list row;
  record_count : Z;
  pbar : list Z;
  requests : list efetch_params
}.

(** tqdm's counter [n]: the sum of the updates so far. *)
Definition pbar_n (st : state) : Z := fold_right Z.add 0 (pbar st).

(** The two [return] statements inside the article loop. *)
Inductive return_site : Type :=
| PreviewReached   (* line 67 *)
| LimitReached.    (* line 71 *)

(** [X.find(name).text if X.find(name) else "N/A"] *)
Definition text_or_na (x : node) (nm : string) : result string :=
  if truthy (find nm x) then attr_text (find nm x) else Ok "N/A".

(** Line 75. *)
Definition year_or_na (article : node) : result string :=
  cond <- (if truthy (find "PubDate" article)
           then y <- attr_find (find "PubDate" article) "Year" ;;
                Ok (truthy y)
           else Ok false) ;;
  if (cond : bool)
  then y <- attr_find (find "PubDate" article) "Year" ;; attr_text y
  else Ok "N/A".

(** Lines 78-83: the loop over the authors of one article. *)
Fixpoint author_loop (pmid title year : string) (article_data : list row)
                     (authors : list node) : result (list row) :=
  match authors with
  | [] => Ok article_data
  | author :: rest =>
      last_name <- text_or_na author "LastName" ;;
      fore_name <- text_or_na author "ForeName" ;;
      initials <- text_or_na author "Initials" ;;
      affiliation <- text_or_na author "Affiliation" ;;
      author_loop pmid title year
        (article_data
           ++ [[pmid; title; year; last_name; fore_name; initials;
                affiliation]])
        rest
  end.

(** Lines 73-83. *)
Definition extract_rows (article : node) (article_data : list row)
  : result (list row) :=
  pmid <- text_or_na article "PMID" ;;
  title <- text_or_na article "ArticleTitle" ;;
  year <- year_or_na article ;;
  let authors := find_all "Author" article in
  author_loop pmid title year article_data authors.

Definition preview_limit (dry_run : bool) : option Z :=
  if dry_run then Some 10 else None.

(** [if record_limit:] is false for [None] and for [0]. *)
Definition limit_given (record_limit : option Z) : bool :=
  match record_limit with
  | Some l => negb (l =? 0)
  | None => false
  end.

(** [min(total_records, record_limit) if record_limit else total_records] *)
Definition total_to_retrieve (total_records : Z) (record_limit : option Z)
  : Z :=
  match record_limit with
  | Some l => if limit_given record_limit then Z.min total_records l
              else total_records
  | None => total_records
  end.


Definition len (l : list row) : Z := Z.of_nat (List.length l).

(** The [print] calls, [pbar.close()] and [time.sleep] change nothing
    that the function computes with and are left out. *)
Section Fetch.
(** The fetch endpoint: request parameters to parsed response. *)
Variable efetch : efetch_params -> node.
Variables api_key web_env query_key : string.
Variable total_records : Z.
Variable record_limit : option Z.
Variable batch_size : Z.
Variable dry_run : bool.

(** [dry_run and len(article_data) >= preview_limit]; the comparison
    is only evaluated when [dry_run] holds, where the limit is 10. *)
Definition preview_reached (st : state) : bool :=
  dry_run &&
  match preview_limit dry_run with
  | Some p => p <=? len (article_data st)
  | None => false
  end.

(** [record_limit is not None and record_count >= record_limit] *)
Definition limit_reached (st : state) : bool :=
  match record_limit with
  | Some l => l <=? record_count st
  | None => false
  end.

(** Lines 64-85: the body of the loop over the articles of a batch. *)
Definition process_article (st : state) (article : node)
  : result (flow return_site state) :=
  if preview_reached st then Ok (Return PreviewReached st)
  else if limit_reached st then Ok (Return LimitReached st)
  else
    article_data' <- extract_rows article (article_data st) ;;
    Ok (Next (mkState article_data' (record_count st + 1)
                      (pbar st) (requests st))).

Definition request (retstart current_batch_size : Z) : efetch_params :=
  mkParams "pubmed" "xml" query_key web_env retstart current_batch_size
           api_key.

Definition current_batch_size (st : state) : Z :=
  Z.min batch_size
        (total_to_retrieve total_records record_limit - record_count st).

(** Lines 47-90: the body of the loop over the windows. *)
Definition fetch_batch (st : state) (retstart : Z)
  : result (flow return_site state) :=
  let cbs := current_batch_size st in
  let params := request retstart cbs in
  let soup := efetch params in
  let st1 := mkState (article_data st) (record_count st) (pbar st)
                     (requests st ++ [params]) in
  let articles := find_all "PubmedArticle" soup in
  r <- for_each process_article st1 articles ;;
  match r with
  | Next st2 =>
      Ok (Next (mkState (article_data st2) (record_count st2)
                        (pbar st2 ++ [cbs]) (requests st2)))
  | Return site st2 => Ok (Return site st2)
  end.

Definition init : state := mkState [] 0 [] [].

(** The run, up to the [return]: which [return] was taken ([Next] is
    the one on line 92) and the state it was taken in. *)
Definition run : result (flow return_site state) :=
  retstarts <- range 0 (total_to_retrieve total_records record_limit)
                     batch_size ;;
  for_each fetch_batch init retstarts.

Definition fetch_articles_in_batches : result (list row) :=
  r <- run ;;
  Ok (article_data (state_of r)).

(** Every state the run passes through after [init]: one per request
    sent, one per article processed, and one per completed batch. *)
Fixpoint batch_states (st : state) (retstarts : list Z) : list state :=
  match retstarts with
  | [] => []
  | retstart :: rest =>
      let cbs := current_batch_size st in
      let params := request retstart cbs in
      let st1 := mkState (article_data st) (record_count st) (pbar st)
                         (requests st ++ [params]) in
      st1 :: for_states process_article st1
               (find_all "PubmedArticle" (efetch params))
      ++ match fetch_batch st retstart with
         | Ok (Next st') => st' :: batch_states st' rest
         | _ => []
         end
  end.

Definition run_states : list state :=
  match range 0 (total_to_retrieve total_records record_limit) batch_size with
  | Ok retstarts => init :: batch_states init retstarts
  | Raise _ => []
  end.
End Fetch.

(** *** [save_to_csv] *)

Definition header : row :=
  ["PMID"; "Title"; "Year"; "Last Name"; "First Name"; "Initials";
   "Affiliation"].

(** Lines 94-101.  Whether [open(output_file, "w")] succeeds is the file
    system's to say: [can_open] is that answer.  When it fails the
    [OSError] leaves the function and no file is there; when it succeeds
    the file holds the rows handed to the csv writer, the header first.
    The function returns the files it wrote, path and rows, with its
    outcome.  A failure of the device while the rows are being written
    is, like a transport failure, not part of the model. *)
Definition save_to_csv (can_open : string -> bool) (data : list row)
                       (output_file : string)
  : list (string * list row) * result unit :=
  if can_open output_file
  then ([(output_file, header :: data)], Ok tt)
  else ([], Raise OSError).

End Scraper.

Import Scraper.

(* ================================================================= *)
(** ** The command line entry point *)

Module Main.

(** [--logic], restricted by argparse to these three choices. *)
Inductive logic : Type := AND | OR | CUSTOM.

(** The namespace that [parser.parse_args()] returns.  [--keywords] has
    [nargs="+"]; the options without a default are [None] when they are
    not given. *)
Record args : Type := mkArgs {
  arg_api_key : option string;
  arg_keywords : list string;
  arg_start_date : string;
  arg_end_date : option string;
  arg_output : string;
  arg_record_limit : option Z;
  arg_logic : logic;
  arg_custom_logic : option string;
  arg_dry_run : bool
}.

(** [bool(s)] for an optional string: [None] and the empty string are
    false. *)
Definition given (o : option string) : option string :=
  match o with
  | Some s => if String.eqb s "" then None else Some s
  | None => None
  end.

(** Lines 132-139. *)
Definition keyword_combination (a : args) : result string :=
  match arg_logic a with
  | AND => Ok (String.concat " AND " (arg_keywords a))
  | OR => Ok (String.concat " OR " (arg_keywords a))
  | CUSTOM =>
      match given (arg_custom_logic a) with
      | Some custom => Ok custom
      | None => Raise ValueError
      end
  end.

(** What a run of the script did to the outside world, and how it
    ended: the search requests and fetch requests sent, the files
    written (path and rows, header first), and the preview printed. *)
Record outcome : Type := mkOutcome {
  searches : list params;
  fetches : list efetch_params;
  files : list (string * list row);
  preview : option (list row);
  status : result unit
}.

Section Script.
Variable esearch : params -> node.
Variable py_int : string -> option Z.
Variable efetch : efetch_params -> node.
(** Whether [open(path, "w")] succeeds. *)
Variable can_open : string -> bool.

(** Lines 124-155.  [fetch_articles_in_batches] is called with its
    default [batch_size] of 500. *)
Definition main (a : args) : outcome :=
  match given (arg_api_key a) with
  | None => mkOutcome [] [] [] None (Raise ValueError)
  | Some api_key =>
      match keyword_combination a with
      | Raise e => mkOutcome [] [] [] None (Raise e)
      | Ok term =>
          let (sent, found) :=
            get_total_records esearch py_int api_key term
                              (arg_start_date a) (arg_end_date a) in
          match found with
          | Raise e => mkOutcome sent [] [] None (Raise e)
          | Ok session =>
              match run efetch api_key (web_env session) (query_key session)
                        (count session) (arg_record_limit a) 500
                        (arg_dry_run a) with
              | Raise e => mkOutcome sent [] [] None (Raise e)
              | Ok r =>
                  let articles := article_data (state_of r) in
                  if arg_dry_run a
                  then mkOutcome sent (requests (state_of r)) []
                                 (Some (firstn 5 articles)) (Ok tt)
                  else
                    let (written, saved) :=
                      save_to_csv can_open articles (arg_output a) in
                    mkOutcome sent (requests (state_of r)) written None saved
              end
          end
      end
  end.
End Script.

End Main.

(* ================================================================= *)
(** ** Vocabulary of the statements *)

(** What the guarded accesses of lines 73-82 evaluate to. *)
Definition field (x : node) (nm : string) : string :=
  match find nm x with
  | Some t => text t
  | None => "N/A"
  end.

Definition year_field (article : node) : string :=
  match find "PubDate" article with
  | Some d => match find "Year" d with
              | Some y => text y
              | None => "N/A"
              end
  | None => "N/A"
  end.

Definition row_of (article author : node) : row :=
  [ field article "PMID"; field article "ArticleTitle"; year_field article;
    field author "LastName"; field author "ForeName";
    field author "Initials"; field author "Affiliation" ].

Definition article_rows (article : node) : list row :=
  map (row_of article) (find_all "Author" article).

(** The articles of a response, and those of all responses so far. *)
Definition articles_of (efetch : efetch_params -> node) (p : efetch_params)
  : list node :=
  find_all "PubmedArticle" (efetch p).

Definition stream (efetch : efetch_params -> node) (st : state) : list node :=
  flat_map (articles_of efetch) (requests st).

Definition author_count (article : node) : nat :=
  List.length (find_all "Author" article).

Section Windows.
Variable efetch : efetch_params -> node.
Variables api_key web_env query_key : string.
Variable total_records : Z.
Variable record_limit : option Z.
Variable batch_size : Z.

(** The request that the window starting at [retstart] sends from
    state [st], and the articles that come back. *)
Definition window (st : state) (retstart : Z) : efetch_params :=
  request api_key web_env query_key retstart
    (current_batch_size total_records record_limit batch_size st).

Definition payload (st : state) (retstart : Z) : list node :=
  articles_of efetch (window st retstart).

(** The state after the first [k] articles of that window. *)
Definition cut (st : state) (retstart : Z) (k : nat) : state :=
  mkState (article_data st
             ++ flat_map article_rows (firstn k (payload st retstart)))
          (record_count st + Z.of_nat k)
          (pbar st) (requests st ++ [window st retstart]).

(** The state after the whole window, progress bar advanced. *)
Definition completed (st : state) (retstart : Z) : state :=
  mkState (article_data st ++ flat_map article_rows (payload st retstart))
          (record_count st + Z.of_nat (List.length (payload st retstart)))
          (pbar st
             ++ [current_batch_size total_records record_limit batch_size st])
          (requests st ++ [window st retstart]).
End Windows.

(** The service returns as many articles as were asked for. *)
Definition exact (efetch : efetch_params -> node) : Prop :=
  forall p, 0 <= p_retmax p ->
            Z.of_nat (List.length (articles_of efetch p)) = p_retmax p.

(** The service returns no more articles than were asked for. *)
Definition bounded (efetch : efetch_params -> node) : Prop :=
  forall p, 0 <= p_retmax p ->
            Z.of_nat (List.length (articles_of efetch p)) <= p_retmax p.

(** Both checks of lines 64 and 69 let the next article through when
    the articles in [processed] are those processed so far. *)
Definition admitted (record_limit : option Z) (dry_run : bool)
                    (processed : list node) : Prop :=
  (dry_run = true -> len (flat_map article_rows processed) < 10) /\
  (forall l, record_limit = Some l ->
             Z.of_nat (List.length processed) < l).

(** Why the article loop returned in state [st]. *)
Definition stopped (record_limit : option Z) (dry_run : bool)
                   (site : return_site) (st : state) : Prop :=
  match site with
  | PreviewReached => preview_reached dry_run st = true
  | LimitReached =>
      preview_reached dry_run st = false /\
      limit_reached record_limit st = true
  end.

(* ================================================================= *)
(** ** Sample responses *)

Module Sample.

Definition author : node :=
  Tag "Author"
    [ Tag "LastName" [NavigableString "Doe"];
      Tag "ForeName" [NavigableString "Jane"];
      Tag "Initials" [NavigableString "J"];
      Tag "AffiliationInfo" [Tag "Affiliation" [NavigableString "Some Lab"]] ].

(** A collective author: no name parts, no affiliation. *)
Definition bare_author : node :=
  Tag "Author" [Tag "CollectiveName" [NavigableString "The Group"]].

Definition article (authors : list node) : node :=
  Tag "PubmedArticle"
    [ Tag "MedlineCitation"
        [ Tag "PMID" [NavigableString "31452104"];
          Tag "Article"
            [ Tag "Journal"
                [Tag "JournalIssue"
                   [Tag "PubDate" [Tag "Year" [NavigableString "2019"]]]];
              Tag "ArticleTitle" [NavigableString "A title"];
              Tag "AuthorList" authors ] ] ].

(** An article whose date has a season but no year, and no title. *)
Definition undated_article : node :=
  Tag "PubmedArticle"
    [ Tag "MedlineCitation"
        [ Tag "Article"
            [ Tag "Journal"
                [Tag "JournalIssue"
                   [Tag "PubDate"
                      [Tag "MedlineDate" [NavigableString "Spring"]]]];
              Tag "AuthorList" [bare_author] ] ] ].

Definition document (articles : list node) : node :=
  Tag "[document]" [Tag "PubmedArticleSet" articles].

(** A service that answers every request with [retmax] copies of [a]. *)
Definition exact_server (a : node) (p : efetch_params) : node :=
  document (repeat a (Z.to_nat (p_retmax p))).

(** A service that answers every request with the same articles. *)
Definition fixed_server (articles : list node) (p : efetch_params) : node :=
  document articles.

(** An article with two authors, and a payload of two articles. *)
Definition paper : node := article [author; author].

Definition pair : list node := [article [author]; article [author]].

(** Two authors, none, and one author without name parts. *)
Definition mixed : list node := [paper; article []; undated_article].

(** The payload of the dry-run scenario: 4, 3 and 5 authors. *)
Definition scenario : list node :=
  [ article (repeat author 4); article (repeat author 3);
    article (repeat author 5) ].

(** A search response with a count and one token only. *)
Definition no_query_key : node :=
  Tag "[document]"
    [ Tag "eSearchResult"
        [ Tag "Count" [NavigableString "12"];
          Tag "WebEnv" [NavigableString "MCID_1"] ] ].

(** Decimal numerals, standing in for [int]. *)
Definition decimal (s : string) : option Z :=
  option_map Z.of_int (NilZero.int_of_string s).

End Sample.

(** Sample command lines and search responses. *)
Module SampleRun.



(** A service that answers with half of what is asked for. *)
Definition short_server (a : node) (p : efetch_params) : node :=
  Sample.document (repeat a (Z.to_nat (p_retmax p / 2))).


End SampleRun.

(* ================================================================= *)
(** ** Loops with early return: the proof rules *)

Section ForEachRules.
Context {R S A : Type}.
Variable body : S -> A -> result (flow R S).

(** A loop whose body never raises never raises. *)
Lemma for_each_total :
  (forall st x, exists f, body st x = Ok f) ->
  forall xs st, exists f, for_each body st xs = Ok f.
Proof.
  intros Hbody xs; induction xs as [|x xs IH]; intros st; simpl.
  - eexists; reflexivity.
  - destruct (Hbody st x) as [[st'|site st'] ->].
    + apply IH.
    + eexists; reflexivity.
Qed.

(** The invariant [I] may mention the elements still to come; [Q] is
    what holds when the loop is left through a [return]. *)
Lemma for_each_rule (I : list A -> S -> Prop) (Q : R -> S -> Prop) :
  (forall x xs st st',
      I (x :: xs) st -> body st x = Ok (Next st') -> I xs st') ->
  (forall x xs st site st',
      I (x :: xs) st -> body st x = Ok (Return site st') -> Q site st') ->
  forall xs st f,
    I xs st -> for_each body st xs = Ok f ->
    match f with
    | Next st' => I [] st'
    | Return site st' => Q site st'
    end.
Proof.
  intros Hnext Hret xs; induction xs as [|x xs IH]; intros st f HI Hrun;
    simpl in Hrun.
  - injection Hrun as <-. exact HI.
  - destruct (body st x) as [[st'|site st']|e] eqn:Hb.
    + apply (IH st'); [eapply Hnext; eassumption | exact Hrun].
    + injection Hrun as <-. eapply Hret; eassumption.
    + discriminate.
Qed.

Lemma for_states_rule (I : list A -> S -> Prop) (P : S -> Prop) :
  (forall x xs st st',
      I (x :: xs) st -> body st x = Ok (Next st') -> I xs st') ->
  (forall xs st, I xs st -> P st) ->
  forall xs st, I xs st -> Forall P (for_states body st xs).
Proof.
  intros Hnext HP xs; induction xs as [|x xs IH]; intros st HI; simpl.
  - constructor.
  - destruct (body st x) as [[st'|site st']|e] eqn:Hb; try constructor.
    + eapply HP, Hnext; eassumption.
    + apply IH. eapply Hnext; eassumption.
Qed.

(** The state a loop ends in is the one it started in or one of those
    it passed through, when the body leaves the state alone on
    [return]. *)
Lemma for_each_final_visited :
  (forall st x site st', body st x = Ok (Return site st') -> st' = st) ->
  forall xs st f,
    for_each body st xs = Ok f ->
    In (state_of f) (st :: for_states body st xs).
Proof.
  intros Hret xs; induction xs as [|x xs IH]; intros st f Hrun;
    simpl in Hrun |- *.
  - injection Hrun as <-. now left.
  - destruct (body st x) as [[st'|site st']|e] eqn:Hb.
    + right. apply (IH st' f Hrun).
    + injection Hrun as <-. left. simpl. symmetry.
      eapply Hret; eassumption.
    + discriminate.
Qed.
End ForEachRules.

(* ================================================================= *)
(** ** Field extraction *)

Lemma text_or_na_ok (x : node) (nm : string) :
  text_or_na x nm = Ok (field x nm).
Proof.
  unfold text_or_na, field. destruct (find nm x); reflexivity.
Qed.

Lemma year_or_na_ok (article : node) :
  year_or_na article = Ok (year_field article).
Proof.
  unfold year_or_na, year_field.
  destruct (find "PubDate" article) as [d|]; simpl; [|reflexivity].
  destruct (find "Year" d); reflexivity.
Qed.

Lemma author_loop_ok (pmid title year : string) (authors : list node) :
  forall acc,
    author_loop pmid title year acc authors =
    Ok (acc ++ map (fun author =>
                      [ pmid; title; year;
                        field author "LastName"; field author "ForeName";
                        field author "Initials"; field author "Affiliation" ])
                   authors).
Proof.
  induction authors as [|author rest IH]; intros acc; simpl.
  - now rewrite app_nil_r.
  - rewrite !text_or_na_ok. simpl. rewrite IH, <- app_assoc. reflexivity.
Qed.

Lemma extract_rows_ok (article : node) (acc : list row) :
  extract_rows article acc = Ok (acc ++ article_rows article).
Proof.
  unfold extract_rows.
  rewrite !text_or_na_ok, year_or_na_ok. simpl.
  apply author_loop_ok.
Qed.

(* ================================================================= *)
(** ** One article, one batch *)

Section Steps.
Variable efetch : efetch_params -> node.
Variables api_key web_env query_key : string.
Variable total_records : Z.
Variable record_limit : option Z.
Variable batch_size : Z.
Variable dry_run : bool.

Let process := process_article record_limit dry_run.
Let batch :=
  fetch_batch efetch api_key web_env query_key total_records record_limit
              batch_size dry_run.

Lemma process_article_eq (st : state) (article : node) :
  process st article =
  Ok (if preview_reached dry_run st then Return PreviewReached st
      else if limit_reached record_limit st then Return LimitReached st
      else Next (mkState (article_data st ++ article_rows article)
                         (record_count st + 1) (pbar st) (requests st))).
Proof.
  unfold process, process_article.
  destruct (preview_reached dry_run st); [reflexivity|].
  destruct (limit_reached record_limit st); [reflexivity|].
  rewrite extract_rows_ok. reflexivity.
Qed.

Lemma process_article_total (st : state) (article : node) :
  exists f, process st article = Ok f.
Proof. rewrite process_article_eq. eexists; reflexivity. Qed.

Lemma process_article_return (st : state) (article : node) site st' :
  process st article = Ok (Return site st') -> st' = st.
Proof.
  rewrite process_article_eq.
  destruct (preview_reached dry_run st);
    [|destruct (limit_reached record_limit st)];
    intros H; inversion H; reflexivity.
Qed.

Lemma fetch_batch_total (st : state) (retstart : Z) :
  exists f, batch st retstart = Ok f.
Proof.
  unfold batch, fetch_batch.
  match goal with
  | |- context [for_each ?b ?s ?l] =>
      destruct (for_each_total b process_article_total l s) as [f Hf]
  end.
  fold process in Hf |- *. rewrite Hf. simpl.
  destruct f; eexists; reflexivity.
Qed.
End Steps.

Lemma article_rows_length (article : node) :
  List.length (article_rows article) = author_count article.
Proof. unfold article_rows, author_count. apply length_map. Qed.


Section Batches.
Variable efetch : efetch_params -> node.
Variables api_key web_env query_key : string.
Variable total_records : Z.
Variable record_limit : option Z.
Variable batch_size : Z.
Variable dry_run : bool.

Let batch :=
  fetch_batch efetch api_key web_env query_key total_records record_limit
              batch_size dry_run.
Let payload_of :=
  payload efetch api_key web_env query_key total_records record_limit
          batch_size.
Let cut_of :=
  cut efetch api_key web_env query_key total_records record_limit batch_size.
Let completed_of :=
  completed efetch api_key web_env query_key total_records record_limit
            batch_size.

Lemma process_article_stopped (st : state) (a : node) site st' :
  process_article record_limit dry_run st a = Ok (Return site st') ->
  st' = st /\ stopped record_limit dry_run site st.
Proof.
  rewrite process_article_eq. unfold stopped.
  destruct (preview_reached dry_run st) eqn:Hp;
    [|destruct (limit_reached record_limit st) eqn:Hl];
    intros H; inversion H; subst; auto.
Qed.

Lemma process_article_next (st : state) (a : node) st' :
  process_article record_limit dry_run st a = Ok (Next st') ->
  preview_reached dry_run st = false /\
  limit_reached record_limit st = false /\
  st' = mkState (article_data st ++ article_rows a)
                (record_count st + 1) (pbar st) (requests st).
Proof.
  rewrite process_article_eq.
  destruct (preview_reached dry_run st) eqn:Hp;
    [|destruct (limit_reached record_limit st) eqn:Hl];
    intros H; inversion H; subst; auto.
Qed.

(** The article loop over [arts]: it runs through, or it returns in
    front of article number [k], and every article before that was
    admitted by both checks. *)
Lemma article_loop_shape (arts : list node) :
  forall st,
  exists k f,
    for_each (process_article record_limit dry_run) st arts = Ok f /\
    (k <= List.length arts)%nat /\
    state_of f =
      mkState (article_data st ++ flat_map article_rows (firstn k arts))
              (record_count st + Z.of_nat k) (pbar st) (requests st) /\
    (forall j, (j < k)%nat ->
       let sj := mkState
                   (article_data st ++ flat_map article_rows (firstn j arts))
                   (record_count st + Z.of_nat j) (pbar st) (requests st) in
       preview_reached dry_run sj = false /\
       limit_reached record_limit sj = false) /\
    match f with
    | Next _ => k = List.length arts
    | Return site s' =>
        (k < List.length arts)%nat /\ stopped record_limit dry_run site s'
    end.
Proof.
  induction arts as [|a rest IH]; intros st.
  - exists 0%nat, (Next st). simpl. rewrite app_nil_r, Z.add_0_r.
    destruct st; repeat split; auto; lia.
  - simpl. destruct (process_article record_limit dry_run st a)
      as [[s'|site s']|e] eqn:Hb.
    + apply process_article_next in Hb as (Hp & Hl & ->).
      destruct (IH (mkState (article_data st ++ article_rows a)
                            (record_count st + 1) (pbar st) (requests st)))
        as (k & f & Hrun & Hk & Hst & Hbefore & Hf).
      exists (S k), f. simpl in Hst, Hbefore |- *.
      rewrite Hrun, Hst, <- app_assoc.
      split; [reflexivity|]. split; [lia|].
      split; [f_equal; lia|]. split.
      * intros [|j] Hj; simpl.
        -- rewrite app_nil_r, Z.add_0_r. destruct st; auto.
        -- specialize (Hbefore j ltac:(lia)).
           rewrite <- app_assoc in Hbefore.
           replace (record_count st + Z.pos (Pos.of_succ_nat j))
             with (record_count st + 1 + Z.of_nat j) by lia.
           exact Hbefore.
      * destruct f; [lia|]. destruct Hf as [Hlt Hp']. split; [lia|].
        exact Hp'.
    + apply process_article_stopped in Hb as [-> Hstop].
      exists 0%nat, (Return site st). simpl.
      rewrite app_nil_r, Z.add_0_r.
      split; [reflexivity|]. split; [lia|].
      split; [destruct st; reflexivity|]. split; [intros j Hj; lia|].
      split; [lia|exact Hstop].
    + destruct (process_article_total record_limit dry_run st a) as [f Hf].
      congruence.
Qed.

(** One window: the request goes out with [retmax] the current batch
    size; then either the whole payload is processed and the progress
    bar advanced, or a [return] cuts the payload in front of article
    number [k]. *)
Lemma fetch_batch_shape (st : state) (retstart : Z) :
  exists k f,
    batch st retstart = Ok f /\
    (forall j, (j < k)%nat ->
       preview_reached dry_run (cut_of st retstart j) = false /\
       limit_reached record_limit (cut_of st retstart j) = false) /\
    match f with
    | Next st' =>
        k = List.length (payload_of st retstart) /\
        st' = completed_of st retstart
    | Return site st' =>
        (k < List.length (payload_of st retstart))%nat /\
        st' = cut_of st retstart k /\ stopped record_limit dry_run site st'
    end.
Proof.
  unfold batch, fetch_batch.
  match goal with
  | |- context [for_each _ ?s ?l] =>
      destruct (article_loop_shape l s)
        as (k & f & Hrun & Hk & Hst & Hbefore & Hf)
  end.
  rewrite Hrun. simpl in Hst, Hbefore |- *. exists k.
  destruct f as [st2|site st2]; simpl in Hst; subst st2; simpl.
  - eexists. split; [reflexivity|]. split; [exact Hbefore|].
    split; [exact Hf|]. subst k. rewrite firstn_all. reflexivity.
  - eexists. split; [reflexivity|]. split; [exact Hbefore|].
    destruct Hf as [Hlt Hstop]. repeat split; auto.
Qed.

(** The proof rule for the loop over the windows. *)
Lemma batches_rule (I : list Z -> state -> Prop)
                   (Q : return_site -> state -> Prop) :
  (forall s rest st,
      I (s :: rest) st ->
      (forall j, (j < List.length (payload_of st s))%nat ->
         preview_reached dry_run (cut_of st s j) = false /\
         limit_reached record_limit (cut_of st s j) = false) ->
      I rest (completed_of st s)) ->
  (forall s rest st k site,
      I (s :: rest) st ->
      (k < List.length (payload_of st s))%nat ->
      (forall j, (j < k)%nat ->
         preview_reached dry_run (cut_of st s j) = false /\
         limit_reached record_limit (cut_of st s j) = false) ->
      stopped record_limit dry_run site (cut_of st s k) ->
      Q site (cut_of st s k)) ->
  forall starts st,
    I starts st ->
    exists f,
      for_each batch st starts = Ok f /\
      match f with
      | Next st' => I [] st'
      | Return site st' => Q site st'
      end.
Proof.
  intros Hnext Hret starts st HI.
  destruct (for_each_total batch
              (fetch_batch_total efetch api_key web_env query_key
                 total_records record_limit batch_size dry_run)
              starts st) as [f Hf].
  exists f. split; [exact Hf|].
  refine (for_each_rule batch I Q _ _ starts st f HI Hf).
  - intros x xs s s' HIs Hb.
    destruct (fetch_batch_shape s x) as (k & f' & Hb' & Hbefore & Hshape).
    rewrite Hb in Hb'. injection Hb' as <-.
    destruct Hshape as [-> ->]. eapply Hnext; eassumption.
  - intros x xs s site s' HIs Hb.
    destruct (fetch_batch_shape s x) as (k & f' & Hb' & Hbefore & Hshape).
    rewrite Hb in Hb'. injection Hb' as <-.
    destruct Hshape as (Hlt & -> & Hstop). eapply Hret; eassumption.
Qed.

Lemma run_unfold :
  batch_size <> 0 ->
  exists starts,
    range 0 (total_to_retrieve total_records record_limit) batch_size =
    Ok starts /\
    run efetch api_key web_env query_key total_records record_limit
        batch_size dry_run = for_each batch init starts.
Proof.
  intros Hbs. unfold run, range.
  destruct (Z.eqb_spec batch_size 0) as [|_]; [contradiction|].
  eexists. split; reflexivity.
Qed.
End Batches.

(* ================================================================= *)
(** ** Field extraction is total; rows have the header's shape *)

(** C4: extraction of the rows of an article never raises and fills all
    seven positions of every row; a position whose element is missing
    (PMID, title, the date container or the year inside it, last name,
    fore name, initials, affiliation) holds the string "N/A". *)
Theorem extraction_total (article : node) (acc : list row) :
  exists rows,
    extract_rows article acc = Ok (acc ++ rows) /\
    Forall2
      (fun author r =>
         exists pmid title year last_name fore_name initials affiliation,
           r = [pmid; title; year; last_name; fore_name; initials; affiliation]
           /\ (find "PMID" article = None -> pmid = "N/A")
           /\ (find "ArticleTitle" article = None -> title = "N/A")
           /\ (find "PubDate" article = None -> year = "N/A")
           /\ (forall d, find "PubDate" article = Some d ->
                         find "Year" d = None -> year = "N/A")
           /\ (find "LastName" author = None -> last_name = "N/A")
           /\ (find "ForeName" author = None -> fore_name = "N/A")
           /\ (find "Initials" author = None -> initials = "N/A")
           /\ (find "Affiliation" author = None -> affiliation = "N/A"))
      (find_all "Author" article) rows.
Proof.
  exists (article_rows article). split; [apply extract_rows_ok|].
  unfold article_rows.
  induction (find_all "Author" article) as [|author rest IH]; simpl;
    constructor; [|exact IH].
  exists (field article "PMID"), (field article "ArticleTitle"),
    (year_field article), (field author "LastName"),
    (field author "ForeName"), (field author "Initials"),
    (field author "Affiliation").
  unfold row_of, field, year_field.
  repeat split; try (intros ->; reflexivity).
  intros d -> ->. reflexivity.
Qed.

(* ================================================================= *)
(** ** [get_total_records] on a malformed response *)

(** C8: when the response to the search request lacks the Count, the
    WebEnv or the QueryKey element, [get_total_records] raises instead
    of returning a session (the attribute access on [None] fails, or
    [int] does when it is reached first), and it has sent that one
    request only. *)
Theorem missing_field_raises
    (esearch : params -> node) (py_int : string -> option Z)
    (api_key keyword start_date : string) (end_date : option string) :
  let request := esearch_params api_key keyword start_date end_date in
  let soup := esearch request in
  find "Count" soup = None \/ find "WebEnv" soup = None \/
  find "QueryKey" soup = None ->
  exists e,
    get_total_records esearch py_int api_key keyword start_date end_date =
    ([request], Raise e) /\
    (e = AttributeError \/
     e = ValueError /\
     exists c, find "Count" soup = Some c /\ py_int (text c) = None).
Proof.
  intros request soup H.
  unfold get_total_records, parse_session. fold request. fold soup.
  destruct (find "Count" soup) as [c|] eqn:Hc; simpl;
    [|exists AttributeError; auto].
  unfold int_of. destruct (py_int (text c)) eqn:Hi; simpl;
    [|exists ValueError; split; [reflexivity|right; eauto]].
  destruct (find "WebEnv" soup) as [w|]; simpl;
    [|exists AttributeError; auto].
  destruct (find "QueryKey" soup) as [q|]; simpl;
    [|exists AttributeError; auto].
  destruct H as [H|[H|H]]; discriminate.
Qed.

Lemma missing_field_raises_witness :
  exists e,
    get_total_records (fun _ => Sample.no_query_key) Sample.decimal
      "key" "cancer AND health" "2022/01/01" None =
    ([esearch_params "key" "cancer AND health" "2022/01/01" None], Raise e) /\
    (e = AttributeError \/
     e = ValueError /\
     exists c, find "Count" Sample.no_query_key = Some c /\
               Sample.decimal (text c) = None).
Proof.
  apply (missing_field_raises (fun _ => Sample.no_query_key) Sample.decimal
           "key" "cancer AND health" "2022/01/01" None).
  right. right. reflexivity.
Defined.

(* ================================================================= *)
(** ** Rows and processed articles *)

Section Processed.
Variable efetch : efetch_params -> node.
Variables api_key web_env query_key : string.
Variable total_records : Z.
Variable record_limit : option Z.
Variable batch_size : Z.
Variable dry_run : bool.

Let cut_of :=
  cut efetch api_key web_env query_key total_records record_limit batch_size.
Let completed_of :=
  completed efetch api_key web_env query_key total_records record_limit
            batch_size.
Let payload_of :=
  payload efetch api_key web_env query_key total_records record_limit
          batch_size.

Lemma stream_cut (st : state) (s : Z) (k : nat) :
  stream efetch (cut_of st s k) = stream efetch st ++ payload_of st s.
Proof.
  unfold stream, cut_of, cut. simpl.
  rewrite flat_map_app. simpl. now rewrite app_nil_r.
Qed.

Lemma stream_completed (st : state) (s : Z) :
  stream efetch (completed_of st s) = stream efetch st ++ payload_of st s.
Proof.
  unfold stream, completed_of, completed. simpl.
  rewrite flat_map_app. simpl. now rewrite app_nil_r.
Qed.

(** In every run the articles processed are the first [record_count]
    of those received, and the rows are theirs; a run that reaches
    the final [return] has processed all it received. *)
Lemma run_processed :
  batch_size <> 0 ->
  exists f,
    run efetch api_key web_env query_key total_records record_limit
        batch_size dry_run = Ok f /\
    let st := state_of f in
    (0 <= record_count st <= Z.of_nat (List.length (stream efetch st))) /\
    article_data st =
      flat_map article_rows
        (firstn (Z.to_nat (record_count st)) (stream efetch st)) /\
    match f with
    | Next _ => record_count st = Z.of_nat (List.length (stream efetch st))
    | Return site _ => stopped record_limit dry_run site st
    end.
Proof.
  intros Hbs.
  destruct (run_unfold efetch api_key web_env query_key total_records
              record_limit batch_size dry_run Hbs) as (starts & _ & ->).
  destruct (batches_rule efetch api_key web_env query_key total_records
              record_limit batch_size dry_run
    (fun _ st =>
       article_data st = flat_map article_rows (stream efetch st) /\
       record_count st = Z.of_nat (List.length (stream efetch st)))
    (fun site st =>
       (0 <= record_count st <= Z.of_nat (List.length (stream efetch st))) /\
       article_data st =
         flat_map article_rows
           (firstn (Z.to_nat (record_count st)) (stream efetch st)) /\
       stopped record_limit dry_run site st))
    with (starts := starts) (st := init) as (f & Hf & HI).
  - intros s rest st [Hd Hc] _.
    fold (completed_of st s). rewrite stream_completed.
    unfold completed_of, completed. simpl. fold (payload_of st s).
    rewrite Hd, Hc, flat_map_app, length_app. split; [reflexivity|lia].
  - intros s rest st k site [Hd Hc] Hk _ Hstop.
    fold (cut_of st s k) in Hstop |- *. rewrite stream_cut.
    split; [|split; [|exact Hstop]];
      unfold cut_of, cut; simpl; fold (payload_of st s) in Hk |- *.
    + rewrite Hc, length_app. lia.
    + rewrite Hd, Hc, <- Nat2Z.inj_add, Nat2Z.id.
      rewrite firstn_app_2, flat_map_app. reflexivity.
  - split; reflexivity.
  - exists f. split; [exact Hf|]. simpl.
    destruct f as [st|site st]; simpl.
    + destruct HI as [Hd Hc]. rewrite Hc, Nat2Z.id, firstn_all.
      repeat split; auto; lia.
    + tauto.
Qed.
End Processed.

(* ================================================================= *)
(** ** The anatomy of a run *)

Lemma admitted_of_checks
    (record_limit : option Z) (dry_run : bool) (st : state)
    (processed : list node) :
  article_data st = flat_map article_rows processed ->
  record_count st = Z.of_nat (List.length processed) ->
  preview_reached dry_run st = false ->
  limit_reached record_limit st = false ->
  admitted record_limit dry_run processed.
Proof.
  intros Hd Hc Hp Hl. split.
  - intros ->. unfold preview_reached, preview_limit in Hp. simpl in Hp.
    rewrite Hd in Hp.
    destruct (Z.leb_spec 10 (len (flat_map article_rows processed)));
      [discriminate|assumption].
  - intros l ->. unfold limit_reached in Hl. rewrite Hc in Hl.
    destruct (Z.leb_spec l (Z.of_nat (List.length processed)));
      [discriminate|assumption].
Qed.

Lemma stopped_meaning
    (record_limit : option Z) (dry_run : bool) (site : return_site)
    (st : state) :
  stopped record_limit dry_run site st ->
  match site with
  | PreviewReached => dry_run = true /\ 10 <= len (article_data st)
  | LimitReached =>
      (dry_run = true -> len (article_data st) < 10) /\
      exists l, record_limit = Some l /\ l <= record_count st
  end.
Proof.
  destruct site; simpl.
  - unfold preview_reached, preview_limit.
    destruct dry_run; [|discriminate]. simpl. intros H.
    destruct (Z.leb_spec 10 (len (article_data st))); [auto|discriminate].
  - intros [Hp Hl]. split.
    + intros ->. unfold preview_reached, preview_limit in Hp. simpl in Hp.
      destruct (Z.leb_spec 10 (len (article_data st)));
        [discriminate|assumption].
    + unfold limit_reached in Hl. destruct record_limit as [l|];
        [|discriminate].
      exists l. split; [reflexivity|].
      destruct (Z.leb_spec l (record_count st)); [assumption|discriminate].
Qed.

Section Anatomy.
Variable efetch : efetch_params -> node.
Variables api_key web_env query_key : string.
Variable total_records : Z.
Variable record_limit : option Z.
Variable batch_size : Z.
Variable dry_run : bool.

Let cut_of :=
  cut efetch api_key web_env query_key total_records record_limit batch_size.
Let payload_of :=
  payload efetch api_key web_env query_key total_records record_limit
          batch_size.

(** The articles let through in a window extend those let through
    before it. *)
Lemma admitted_extend (st : state) (s : Z) (k : nat) :
  article_data st = flat_map article_rows (stream efetch st) ->
  record_count st = Z.of_nat (List.length (stream efetch st)) ->
  (forall j, (j < List.length (stream efetch st))%nat ->
     admitted record_limit dry_run (firstn j (stream efetch st))) ->
  (k <= List.length (payload_of st s))%nat ->
  (forall j, (j < k)%nat ->
     preview_reached dry_run (cut_of st s j) = false /\
     limit_reached record_limit (cut_of st s j) = false) ->
  forall i, (i < List.length (stream efetch st) + k)%nat ->
    admitted record_limit dry_run
      (firstn i (stream efetch st ++ payload_of st s)).
Proof.
  intros Hd Hc Hold Hk Hbefore i Hi.
  rewrite firstn_app.
  destruct (Nat.lt_ge_cases i (List.length (stream efetch st))) as [Hlt|Hge].
  - replace (i - List.length (stream efetch st))%nat with 0%nat by lia.
    rewrite firstn_0, app_nil_r. now apply Hold.
  - rewrite firstn_all2 by exact Hge.
    set (j := (i - List.length (stream efetch st))%nat).
    destruct (Hbefore j ltac:(lia)) as [Hp Hl].
    apply (admitted_of_checks record_limit dry_run (cut_of st s j));
      try assumption.
    + unfold cut_of, cut. cbn [article_data]. fold (payload_of st s).
      now rewrite Hd, flat_map_app.
    + unfold cut_of, cut. cbn [record_count].
      rewrite Hc, length_app, length_firstn. lia.
Qed.

(** A run, as a whole.  The requests go out at the offsets of
    [range], in order; the articles processed are the first
    [record_count] of those received, each let through by both checks,
    and the rows are theirs; a run that reaches the final [return] has
    requested every window, processed every article received and
    advanced the bar once per window; a run that returns early does so
    inside the last window requested, in front of an article that one
    of the checks stopped, without the update for that window. *)
Lemma run_anatomy :
  batch_size <> 0 ->
  exists starts f later,
    range 0 (total_to_retrieve total_records record_limit) batch_size =
    Ok starts /\
    run efetch api_key web_env query_key total_records record_limit
        batch_size dry_run = Ok f /\
    starts = map p_retstart (requests (state_of f)) ++ later /\
    Forall (fun p =>
              p = request api_key web_env query_key (p_retstart p)
                          (p_retmax p) /\
              p_retmax p <= batch_size)
           (requests (state_of f)) /\
    exists n,
      record_count (state_of f) = Z.of_nat n /\
      (n <= List.length (stream efetch (state_of f)))%nat /\
      article_data (state_of f) =
        flat_map article_rows (firstn n (stream efetch (state_of f))) /\
      (forall j, (j < n)%nat ->
         admitted record_limit dry_run
                  (firstn j (stream efetch (state_of f)))) /\
      match f with
      | Next st =>
          later = [] /\ pbar st = map p_retmax (requests st) /\
          n = List.length (stream efetch st)
      | Return site st =>
          stopped record_limit dry_run site st /\
          exists reqs p,
            requests st = reqs ++ [p] /\ pbar st = map p_retmax reqs /\
            (List.length (flat_map (articles_of efetch) reqs) <= n
             < List.length (stream efetch st))%nat
      end.
Proof.
  intros Hbs.
  destruct (run_unfold efetch api_key web_env query_key total_records
              record_limit batch_size dry_run Hbs) as (starts & Hr & Hrun).
  set (P := fun p =>
              p = request api_key web_env query_key (p_retstart p)
                          (p_retmax p) /\
              p_retmax p <= batch_size).
  assert (HP : forall st s,
            P (window api_key web_env query_key total_records record_limit
                      batch_size st s)).
  { intros st s. split; [reflexivity|].
    unfold window, current_batch_size. simpl. lia. }
  destruct (batches_rule efetch api_key web_env query_key total_records
              record_limit batch_size dry_run
    (fun rem st =>
       starts = map p_retstart (requests st) ++ rem /\
       Forall P (requests st) /\
       pbar st = map p_retmax (requests st) /\
       article_data st = flat_map article_rows (stream efetch st) /\
       record_count st = Z.of_nat (List.length (stream efetch st)) /\
       (forall j, (j < List.length (stream efetch st))%nat ->
          admitted record_limit dry_run (firstn j (stream efetch st))))
    (fun site st =>
       (exists later, starts = map p_retstart (requests st) ++ later) /\
       Forall P (requests st) /\
       stopped record_limit dry_run site st /\
       exists reqs p n,
         requests st = reqs ++ [p] /\ pbar st = map p_retmax reqs /\
         record_count st = Z.of_nat n /\
         (List.length (flat_map (articles_of efetch) reqs) <= n
          < List.length (stream efetch st))%nat /\
         article_data st =
           flat_map article_rows (firstn n (stream efetch st)) /\
         (forall j, (j < n)%nat ->
            admitted record_limit dry_run (firstn j (stream efetch st)))))
    with (starts := starts) (st := init) as (f & Hf & Hpost).
  - intros s rest st (Hs & Hall & Hbar & Hd & Hc & Hadm) Hbefore.
    pose proof (admitted_extend st s _ Hd Hc Hadm (Nat.le_refl _) Hbefore)
      as Hext.
    fold (cut_of st s) in Hbefore.
    rewrite (stream_completed efetch api_key web_env query_key total_records
               record_limit batch_size st s).
    fold (payload_of st s).
    unfold completed. cbn [article_data record_count pbar requests].
    fold (payload_of st s).
    rewrite !map_app, <- app_assoc, Hbar, Hd, Hc, flat_map_app, length_app.
    split; [exact Hs|]. split.
    { apply Forall_app. split; [exact Hall|].
      constructor; [apply HP|constructor]. }
    split; [reflexivity|]. split; [reflexivity|]. split; [lia|].
    exact Hext.
  - intros s rest st k site (Hs & Hall & Hbar & Hd & Hc & Hadm) Hk Hbefore
           Hstop.
    pose proof (admitted_extend st s k Hd Hc Hadm ltac:(fold (payload_of st s) in Hk; lia)
                  Hbefore) as Hext.
    fold (payload_of st s) in Hk.
    split; [|split; [|split; [exact Hstop|]]].
    + exists rest. unfold cut. cbn [requests].
      rewrite map_app, <- app_assoc. exact Hs.
    + unfold cut. cbn [requests]. apply Forall_app.
      split; [exact Hall|]. constructor; [apply HP|constructor].
    + exists (requests st),
        (window api_key web_env query_key total_records record_limit
                batch_size st s),
        (List.length (stream efetch st) + k)%nat.
      rewrite (stream_cut efetch api_key web_env query_key total_records
                 record_limit batch_size st s k).
      fold (payload_of st s).
      unfold cut. cbn [article_data record_count pbar requests].
      fold (payload_of st s).
      split; [reflexivity|]. split; [exact Hbar|]. split; [lia|].
      split; [unfold stream; rewrite length_app; lia|]. split.
      * rewrite Hd, firstn_app_2, flat_map_app. reflexivity.
      * exact Hext.
  - split; [reflexivity|]. split; [constructor|].
    split; [reflexivity|]. split; [reflexivity|]. split; [reflexivity|].
    intros j Hj. simpl in Hj. lia.
  - rewrite Hrun. destruct f as [st|site st]; simpl in Hpost.
    + destruct Hpost as (Hs & Hall & Hbar & Hd & Hc & Hadm).
      exists starts, (Next st), []. simpl.
      split; [exact Hr|]. split; [exact Hf|]. split; [exact Hs|].
      split; [exact Hall|].
      exists (List.length (stream efetch st)).
      rewrite firstn_all.
      split; [exact Hc|]. split; [lia|]. split; [exact Hd|].
      split; [exact Hadm|]. split; [reflexivity|]. split; [exact Hbar|].
      reflexivity.
    + destruct Hpost as ((later & Hs) & Hall & Hstop & reqs & p & n & Hq & Hbar
                         & Hc & Hn & Hd & Hadm).
      exists starts, (Return site st), later. simpl.
      split; [exact Hr|]. split; [exact Hf|]. split; [exact Hs|].
      split; [exact Hall|].
      exists n. split; [exact Hc|]. split; [lia|]. split; [exact Hd|].
      split; [exact Hadm|]. split; [exact Hstop|].
      exists reqs, p. auto.
Qed.
End Anatomy.

(* ================================================================= *)
(** ** The rows of a run and the header *)

(** C9: the rows a run returns are, for each article processed in the
    order received and each of its authors in order, the seven-element
    list (pmid, title, year, last name, fore name, initials,
    affiliation) of that article and that author, in this order; the
    header names these seven columns in the same order, and the file
    that [save_to_csv] writes, when it can be opened, holds the header
    followed by exactly these rows, so every data row written has the
    arity and the column order of the header. *)
Theorem rows_match_header
    (efetch : efetch_params -> node) (api_key web_env query_key : string)
    (total_records : Z) (record_limit : option Z) (batch_size : Z)
    (dry_run : bool) :
  batch_size <> 0 ->
  exists f n rows,
    run efetch api_key web_env query_key total_records record_limit
        batch_size dry_run = Ok f /\
    record_count (state_of f) = Z.of_nat n /\
    fetch_articles_in_batches efetch api_key web_env query_key total_records
      record_limit batch_size dry_run = Ok rows /\
    rows =
      flat_map
        (fun article =>
           map (fun author =>
                  [ field article "PMID"; field article "ArticleTitle";
                    year_field article;
                    field author "LastName"; field author "ForeName";
                    field author "Initials"; field author "Affiliation" ])
               (find_all "Author" article))
        (firstn n (stream efetch (state_of f))) /\
    header =
      [ "PMID"; "Title"; "Year"; "Last Name"; "First Name"; "Initials";
        "Affiliation" ] /\
    Forall (fun r => List.length r = List.length header) rows /\
    forall can_open output_file,
      save_to_csv can_open rows output_file =
      if can_open output_file
      then ([(output_file, header :: rows)], Ok tt)
      else ([], Raise OSError).
Proof.
  intros Hbs.
  destruct (run_anatomy efetch api_key web_env query_key total_records
              record_limit batch_size dry_run Hbs)
    as (starts & f & later & _ & Hf & _ & _ & n & Hc & _ & Hd & _).
  exists f, n, (article_data (state_of f)).
  split; [exact Hf|]. split; [exact Hc|]. split.
  { unfold fetch_articles_in_batches. rewrite Hf. reflexivity. }
  split; [exact Hd|]. split; [reflexivity|]. split; [|reflexivity].
  rewrite Hd. apply Forall_forall. intros r Hr.
  apply in_flat_map in Hr as (a & _ & Hr).
  apply in_map_iff in Hr as (au & <- & _). reflexivity.
Qed.

Lemma rows_match_header_witness :
  exists f n rows,
    run (Sample.exact_server (Sample.article [Sample.author; Sample.bare_author]))
        "key" "env" "1" 3 None 500 false = Ok f /\
    record_count (state_of f) = Z.of_nat n /\
    fetch_articles_in_batches
      (Sample.exact_server (Sample.article [Sample.author; Sample.bare_author]))
      "key" "env" "1" 3 None 500 false = Ok rows /\
    rows =
      flat_map
        (fun article =>
           map (fun author =>
                  [ field article "PMID"; field article "ArticleTitle";
                    year_field article;
                    field author "LastName"; field author "ForeName";
                    field author "Initials"; field author "Affiliation" ])
               (find_all "Author" article))
        (firstn n
           (stream (Sample.exact_server
                      (Sample.article [Sample.author; Sample.bare_author]))
                   (state_of f))) /\
    header =
      [ "PMID"; "Title"; "Year"; "Last Name"; "First Name"; "Initials";
        "Affiliation" ] /\
    Forall (fun r => List.length r = List.length header) rows /\
    forall can_open output_file,
      save_to_csv can_open rows output_file =
      if can_open output_file
      then ([(output_file, header :: rows)], Ok tt)
      else ([], Raise OSError).
Proof. apply rows_match_header. lia. Defined.

(* ================================================================= *)
(** ** The order of the per-article checks *)

(** C6: [fetch_articles_in_batches] takes the articles in the order
    received, window by window and in payload order within a window.  On
    the next article it first tests the dry-run row cap and returns
    from the function in front of the article when the rows already
    number 10 or more; then it tests the record limit and returns in
    front of the article when [record_count] has reached it; otherwise
    it appends one row per author of the article, all of them, adds
    exactly 1 to [record_count] and goes on.  So a run ends with the
    complete row lists of the first [n] articles received, each of them
    let through by both checks, [record_count] being [n]; it has either
    processed every article received, or returned in front of article
    [n] through the dry-run [return] with 10 rows or more, or through
    the record-limit [return] with the limit reached and the cap not. *)
Theorem per_article_order
    (efetch : efetch_params -> node) (api_key web_env query_key : string)
    (total_records : Z) (record_limit : option Z) (batch_size : Z)
    (dry_run : bool) :
  batch_size <> 0 ->
  (forall st article rest,
     for_each (process_article record_limit dry_run) st (article :: rest) =
     if dry_run && (10 <=? len (article_data st))
     then Ok (Return PreviewReached st)
     else if match record_limit with
             | Some l => l <=? record_count st
             | None => false
             end
     then Ok (Return LimitReached st)
     else for_each (process_article record_limit dry_run)
            (mkState (article_data st
                        ++ map (row_of article) (find_all "Author" article))
                     (record_count st + 1) (pbar st) (requests st))
            rest) /\
  (forall st retstart,
     let sent :=
       request api_key web_env query_key retstart
               (current_batch_size total_records record_limit batch_size st) in
     fetch_batch efetch api_key web_env query_key total_records record_limit
                 batch_size dry_run st retstart =
     match for_each (process_article record_limit dry_run)
                    (mkState (article_data st) (record_count st) (pbar st)
                             (requests st ++ [sent]))
                    (find_all "PubmedArticle" (efetch sent)) with
     | Ok (Next st') =>
         Ok (Next (mkState (article_data st') (record_count st')
                     (pbar st' ++ [p_retmax sent]) (requests st')))
     | Ok (Return site st') => Ok (Return site st')
     | Raise e => Raise e
     end) /\
  exists starts f later n,
    range 0 (total_to_retrieve total_records record_limit) batch_size =
    Ok starts /\
    run efetch api_key web_env query_key total_records record_limit
        batch_size dry_run = Ok f /\
    starts = map p_retstart (requests (state_of f)) ++ later /\
    record_count (state_of f) = Z.of_nat n /\
    (n <= List.length (stream efetch (state_of f)))%nat /\
    fetch_articles_in_batches efetch api_key web_env query_key total_records
      record_limit batch_size dry_run =
    Ok (flat_map article_rows (firstn n (stream efetch (state_of f)))) /\
    (forall j, (j < n)%nat ->
       admitted record_limit dry_run
                (firstn j (stream efetch (state_of f)))) /\
    match f with
    | Next st => later = [] /\ n = List.length (stream efetch st)
    | Return PreviewReached st =>
        (n < List.length (stream efetch st))%nat /\
        dry_run = true /\ 10 <= len (article_data st)
    | Return LimitReached st =>
        (n < List.length (stream efetch st))%nat /\
        (dry_run = true -> len (article_data st) < 10) /\
        exists l, record_limit = Some l /\ l <= Z.of_nat n
    end.
Proof.
  intros Hbs. split; [|split].
  - intros st article rest. simpl. rewrite process_article_eq.
    unfold preview_reached, limit_reached, preview_limit.
    destruct dry_run; simpl.
    + destruct (10 <=? len (article_data st)); [reflexivity|].
      destruct record_limit as [l|]; [|reflexivity].
      destruct (l <=? record_count st); reflexivity.
    + destruct record_limit as [l|]; [|reflexivity].
      destruct (l <=? record_count st); reflexivity.
  - intros st retstart sent. reflexivity.
  - destruct (run_anatomy efetch api_key web_env query_key total_records
                record_limit batch_size dry_run Hbs)
      as (starts & f & later & Hr & Hf & Hs & _ & n & Hc & Hn & Hd & Hadm
          & Hend).
    exists starts, f, later, n.
    split; [exact Hr|]. split; [exact Hf|]. split; [exact Hs|].
    split; [exact Hc|]. split; [exact Hn|]. split.
    { unfold fetch_articles_in_batches. rewrite Hf. simpl.
      now rewrite Hd. }
    split; [exact Hadm|].
    destruct f as [st|site st]; simpl in *.
    + destruct Hend as (Hl & _ & Hall). auto.
    + destruct Hend as (Hstop & reqs & p & _ & _ & Hlt).
      apply stopped_meaning in Hstop.
      destruct site.
      * destruct Hstop as [Hdry Hten]. split; [lia|]. auto.
      * destruct Hstop as (Hopen & l & Hl & Hle).
        split; [lia|]. split; [exact Hopen|].
        exists l. split; [exact Hl|]. lia.
Qed.

Lemma per_article_order_witness :
  (forall st article rest,
     for_each (process_article (Some 2) true) st (article :: rest) =
     if true && (10 <=? len (article_data st))
     then Ok (Return PreviewReached st)
     else if 2 <=? record_count st
     then Ok (Return LimitReached st)
     else for_each (process_article (Some 2) true)
            (mkState (article_data st
                        ++ map (row_of article) (find_all "Author" article))
                     (record_count st + 1) (pbar st) (requests st))
            rest) /\
  (forall st retstart,
     fetch_batch (Sample.fixed_server Sample.scenario) "key" "env" "1" 3
                 (Some 2) 500 true st retstart =
     match for_each (process_article (Some 2) true)
                    (mkState (article_data st) (record_count st) (pbar st)
                             (requests st
                                ++ [request "key" "env" "1" retstart
                                      (current_batch_size 3 (Some 2) 500 st)]))
                    (find_all "PubmedArticle"
                       (Sample.fixed_server Sample.scenario
                          (request "key" "env" "1" retstart
                             (current_batch_size 3 (Some 2) 500 st)))) with
     | Ok (Next st') =>
         Ok (Next (mkState (article_data st') (record_count st')
                     (pbar st'
                        ++ [p_retmax
                              (request "key" "env" "1" retstart
                                 (current_batch_size 3 (Some 2) 500 st))])
                     (requests st')))
     | Ok (Return site st') => Ok (Return site st')
     | Raise e => Raise e
     end) /\
  exists starts f later n,
    range 0 (total_to_retrieve 3 (Some 2)) 500 = Ok starts /\
    run (Sample.fixed_server Sample.scenario) "key" "env" "1" 3 (Some 2) 500
        true = Ok f /\
    starts = map p_retstart (requests (state_of f)) ++ later /\
    record_count (state_of f) = Z.of_nat n /\
    (n <= List.length
            (stream (Sample.fixed_server Sample.scenario) (state_of f)))%nat /\
    fetch_articles_in_batches (Sample.fixed_server Sample.scenario)
      "key" "env" "1" 3 (Some 2) 500 true =
    Ok (flat_map article_rows
          (firstn n (stream (Sample.fixed_server Sample.scenario)
                            (state_of f)))) /\
    (forall j, (j < n)%nat ->
       admitted (Some 2) true
                (firstn j (stream (Sample.fixed_server Sample.scenario)
                                  (state_of f)))) /\
    match f with
    | Next st =>
        later = [] /\
        n = List.length (stream (Sample.fixed_server Sample.scenario) st)
    | Return PreviewReached st =>
        (n < List.length
               (stream (Sample.fixed_server Sample.scenario) st))%nat /\
        true = true /\ 10 <= len (article_data st)
    | Return LimitReached st =>
        (n < List.length
               (stream (Sample.fixed_server Sample.scenario) st))%nat /\
        (true = true -> len (article_data st) < 10) /\
        exists l, Some 2 = Some l /\ l <= Z.of_nat n
    end.
Proof.
  apply (per_article_order (Sample.fixed_server Sample.scenario)
           "key" "env" "1" 3 (Some 2) 500 true).
  lia.
Defined.



(* ================================================================= *)
(** ** The windows of a run *)

Lemma range_covers (stop step : Z) :
  0 < step -> 0 <= stop ->
  exists starts,
    range 0 stop step = Ok starts /\
    stop <= Z.of_nat (List.length starts) * step.
Proof.
  intros Hstep Hstop. unfold range, range_length.
  destruct (Z.eqb_spec step 0) as [|_]; [lia|].
  destruct (Z.ltb_spec 0 step) as [_|]; [|lia].
  eexists. split; [reflexivity|].
  rewrite length_map, length_seq.
  destruct (Z.ltb_spec 0 stop) as [Hpos|]; [|simpl; lia].
  replace (stop - 0 - 1) with (stop - 1) by lia.
  pose proof (Z.div_pos (stop - 1) step ltac:(lia) Hstep) as Hq.
  rewrite Z2Nat.id by lia.
  pose proof (Z.mod_pos_bound (stop - 1) step Hstep) as Hr.
  pose proof (Z.div_mod (stop - 1) step ltac:(lia)) as Hdm.
  nia.
Qed.


(* ================================================================= *)
(** ** A record limit of zero *)



(* ================================================================= *)
(** ** The dry-run cap *)

Lemma rows_of_one_more (m : nat) (l : list node) :
  (forall a, In a l -> (author_count a <= m)%nat) ->
  forall j,
    (List.length (flat_map article_rows (firstn (S j) l)) <=
     List.length (flat_map article_rows (firstn j l)) + m)%nat.
Proof.
  induction l as [|a l IH]; intros Hm j.
  - rewrite !firstn_nil. simpl. lia.
  - destruct j as [|j].
    + simpl. rewrite app_nil_r, article_rows_length.
      specialize (Hm a (or_introl eq_refl)). lia.
    + change (firstn (S (S j)) (a :: l)) with (a :: firstn (S j) l).
      change (firstn (S j) (a :: l)) with (a :: firstn j l).
      specialize (IH (fun x Hx => Hm x (or_intror Hx)) j).
      remember (firstn (S j) l) as more. remember (firstn j l) as fewer.
      simpl. rewrite !length_app. lia.
Qed.

Lemma preview_open (st : state) :
  preview_reached true st = false -> len (article_data st) < 10.
Proof.
  unfold preview_reached, preview_limit. simpl.
  destruct (Z.leb_spec 10 (len (article_data st))); [discriminate|auto].
Qed.

(** C1, as the code has it: the cap is tested in front of each article
    only.  Every article a dry run processes found fewer than 10 rows
    accumulated, so when no article has more than [m] authors the run
    returns at most 9 + m rows.  And when 10 rows or more are
    accumulated while an article received is still unprocessed, the run
    has returned through the dry-run [return] in front of that article,
    inside the last window it requested: the windows of [later], which
    remain of the total, are never requested. *)
Theorem dry_run_cap_per_article
    (efetch : efetch_params -> node) (api_key web_env query_key : string)
    (total_records : Z) (record_limit : option Z) (batch_size : Z)
    (m : nat) :
  batch_size <> 0 ->
  (forall p a, In a (articles_of efetch p) -> (author_count a <= m)%nat) ->
  (exists starts f later n,
     range 0 (total_to_retrieve total_records record_limit) batch_size =
     Ok starts /\
     run efetch api_key web_env query_key total_records record_limit
         batch_size true = Ok f /\
     starts = map p_retstart (requests (state_of f)) ++ later /\
     record_count (state_of f) = Z.of_nat n /\
     (n <= List.length (stream efetch (state_of f)))%nat /\
     fetch_articles_in_batches efetch api_key web_env query_key total_records
       record_limit batch_size true =
     Ok (flat_map article_rows (firstn n (stream efetch (state_of f)))) /\
     (forall j, (j < n)%nat ->
        len (flat_map article_rows (firstn j (stream efetch (state_of f))))
        < 10) /\
     len (article_data (state_of f)) <= 9 + Z.of_nat m /\
     (10 <= len (article_data (state_of f)) ->
      (n < List.length (stream efetch (state_of f)))%nat ->
      f = Return PreviewReached (state_of f)) /\
     (forall st, f = Return PreviewReached st ->
        10 <= len (article_data st) /\
        exists reqs p,
          requests st = reqs ++ [p] /\
          (List.length (flat_map (articles_of efetch) reqs) <= n
           < List.length (stream efetch st))%nat)) /\
  (forall st article rest,
     10 <= len (article_data st) ->
     for_each (process_article record_limit true) st (article :: rest) =
     Ok (Return PreviewReached st)).
Proof.
  intros Hbs Hm. split.
  - destruct (run_anatomy efetch api_key web_env query_key total_records
                record_limit batch_size true Hbs)
      as (starts & f & later & Hr & Hf & Hs & _ & n & Hc & Hn & Hd & Hadm
          & Hend).
    exists starts, f, later, n.
    split; [exact Hr|]. split; [exact Hf|]. split; [exact Hs|].
    split; [exact Hc|]. split; [exact Hn|]. split.
    { unfold fetch_articles_in_batches. rewrite Hf. simpl. now rewrite Hd. }
    assert (Hbelow : forall j, (j < n)%nat ->
              len (flat_map article_rows
                     (firstn j (stream efetch (state_of f)))) < 10).
    { intros j Hj. exact (proj1 (Hadm j Hj) eq_refl). }
    split; [exact Hbelow|]. split.
    { rewrite Hd. destruct n as [|j].
      - rewrite firstn_0. unfold len. cbn [flat_map List.length]. lia.
      - specialize (Hbelow j ltac:(lia)).
        assert (HmS : forall a, In a (stream efetch (state_of f)) ->
                                (author_count a <= m)%nat).
        { intros a Ha. unfold stream in Ha.
          apply in_flat_map in Ha as (p & _ & Ha). exact (Hm p a Ha). }
        pose proof (rows_of_one_more m (stream efetch (state_of f)) HmS j).
        unfold len in Hbelow |- *. lia. }
    split.
    { intros Hten Hlt. destruct f as [st|site st]; simpl in *.
      - destruct Hend as (_ & _ & Hall). lia.
      - destruct Hend as (Hstop & _). apply stopped_meaning in Hstop.
        destruct site; [reflexivity|].
        destruct Hstop as [Hopen _]. specialize (Hopen eq_refl). lia. }
    intros st ->. cbn [state_of] in *. cbv beta iota in Hend.
    destruct Hend as (Hstop & reqs & p & Hq & _ & Hlt).
    apply stopped_meaning in Hstop. destruct Hstop as [_ Hten].
    split; [exact Hten|]. exists reqs, p. auto.
  - intros st article rest Hfull. simpl. rewrite process_article_eq.
    unfold preview_reached, preview_limit. simpl.
    destruct (Z.leb_spec 10 (len (article_data st))); [reflexivity|lia].
Qed.

Lemma dry_run_cap_per_article_witness :
  (exists starts f later n,
     range 0 (total_to_retrieve 1200 None) 500 = Ok starts /\
     run (Sample.fixed_server Sample.scenario) "key" "env" "1" 1200 None 500
         true = Ok f /\
     starts = map p_retstart (requests (state_of f)) ++ later /\
     record_count (state_of f) = Z.of_nat n /\
     (n <= List.length
             (stream (Sample.fixed_server Sample.scenario)
                     (state_of f)))%nat /\
     fetch_articles_in_batches (Sample.fixed_server Sample.scenario)
       "key" "env" "1" 1200 None 500 true =
     Ok (flat_map article_rows
           (firstn n (stream (Sample.fixed_server Sample.scenario)
                             (state_of f)))) /\
     (forall j, (j < n)%nat ->
        len (flat_map article_rows
               (firstn j (stream (Sample.fixed_server Sample.scenario)
                                 (state_of f))))
        < 10) /\
     len (article_data (state_of f)) <= 9 + Z.of_nat 5 /\
     (10 <= len (article_data (state_of f)) ->
      (n < List.length
             (stream (Sample.fixed_server Sample.scenario)
                     (state_of f)))%nat ->
      f = Return PreviewReached (state_of f)) /\
     (forall st, f = Return PreviewReached st ->
        10 <= len (article_data st) /\
        exists reqs p,
          requests st = reqs ++ [p] /\
          (List.length
             (flat_map (articles_of (Sample.fixed_server Sample.scenario))
                       reqs) <= n
           < List.length
               (stream (Sample.fixed_server Sample.scenario) st))%nat)) /\
  (forall st article rest,
     10 <= len (article_data st) ->
     for_each (process_article None true) st (article :: rest) =
     Ok (Return PreviewReached st)).
Proof.
  apply (dry_run_cap_per_article (Sample.fixed_server Sample.scenario)
           "key" "env" "1" 1200 None 500 5).
  - lia.
  - intros p a Ha. vm_compute in Ha.
    destruct Ha as [<-|[<-|[<-|[]]]]; vm_compute; lia.
Defined.

(** C1 fails as stated: in the dry run over one payload whose articles
    have 4, 3 and 5 authors, with a total count of 3, the cap is not
    reached in front of any article (0, 4 and 7 rows), so all three are
    processed, 12 rows are returned and the run ends at the final
    [return]. *)
Lemma dry_run_cap_counterexample :
  ~ (forall rows,
       fetch_articles_in_batches (Sample.fixed_server Sample.scenario)
         "key" "env" "1" 3 None 500 true = Ok rows ->
       len rows <= 10) /\
  exists st,
    run (Sample.fixed_server Sample.scenario) "key" "env" "1" 3 None 500 true
      = Ok (Next st) /\
    record_count st = 3 /\ len (article_data st) = 12.
Proof.
  split.
  - intros H.
    destruct (fetch_articles_in_batches (Sample.fixed_server Sample.scenario)
                "key" "env" "1" 3 None 500 true) as [rows|e] eqn:Hrun;
      [|vm_compute in Hrun; discriminate].
    specialize (H rows eq_refl).
    vm_compute in Hrun. injection Hrun as <-. vm_compute in H.
    apply H. reflexivity.
  - eexists. split; [vm_compute; reflexivity|]. split; reflexivity.
Qed.

(* ================================================================= *)
(** ** How many articles a run processes *)

Lemma exact_bounded (efetch : efetch_params -> node) :
  exact efetch -> bounded efetch.
Proof. intros H p Hp. rewrite (H p Hp). lia. Qed.

Lemma target_limit (total_records l : Z) :
  l <> 0 -> total_to_retrieve total_records (Some l) = Z.min total_records l.
Proof.
  intros Hl. unfold total_to_retrieve, limit_given.
  destruct (Z.eqb_spec l 0); [contradiction|reflexivity].
Qed.

(** A limit that is given and not 0 is not reached below the target. *)
Lemma limit_open_below_target
    (total_records : Z) (record_limit : option Z) (st : state) :
  match record_limit with Some l => l <> 0 | None => True end ->
  record_count st < total_to_retrieve total_records record_limit ->
  limit_reached record_limit st = false.
Proof.
  unfold limit_reached. destruct record_limit as [l|]; [|reflexivity].
  intros Hl Hlt. rewrite (target_limit total_records l Hl) in Hlt.
  destruct (Z.leb_spec l (record_count st)); [lia|reflexivity].
Qed.

Section Counting.
Variable efetch : efetch_params -> node.
Variables api_key web_env query_key : string.
Variable total_records : Z.
Variable record_limit : option Z.
Variable batch_size : Z.
Variable dry_run : bool.

Let target := total_to_retrieve total_records record_limit.
Let cut_of :=
  cut efetch api_key web_env query_key total_records record_limit batch_size.
Let payload_of :=
  payload efetch api_key web_env query_key total_records record_limit
          batch_size.

Lemma payload_length_bounded (st : state) (s : Z) :
  bounded efetch -> 0 < batch_size -> record_count st <= target ->
  Z.of_nat (List.length (payload_of st s)) <=
  current_batch_size total_records record_limit batch_size st.
Proof.
  intros Hb Hbs Hc. apply (Hb (window _ _ _ _ _ _ st s)).
  unfold window, current_batch_size. simpl. fold target. lia.
Qed.

Lemma payload_length_exact (st : state) (s : Z) :
  exact efetch -> 0 < batch_size -> record_count st <= target ->
  Z.of_nat (List.length (payload_of st s)) =
  current_batch_size total_records record_limit batch_size st.
Proof.
  intros Hb Hbs Hc. apply (Hb (window _ _ _ _ _ _ st s)).
  unfold window, current_batch_size. simpl. fold target. lia.
Qed.

(** Without dry-run, with a limit that is absent or not 0, a service
    that returns what was asked for is read up to the target. *)
Lemma exact_run_reaches_target :
  dry_run = false ->
  match record_limit with Some l => l <> 0 | None => True end ->
  exact efetch -> 0 < batch_size -> 0 <= target ->
  exists st,
    run efetch api_key web_env query_key total_records record_limit
        batch_size dry_run = Ok (Next st) /\
    record_count st = target.
Proof.
  intros Hdry Hl Hexact Hbs Htarget.
  destruct (range_covers target batch_size Hbs Htarget)
    as (starts & Hr & Hcover).
  unfold run. fold target. rewrite Hr. simpl.
  destruct (batches_rule efetch api_key web_env query_key total_records
              record_limit batch_size dry_run
    (fun rem st =>
       0 <= record_count st <= target /\
       target <= record_count st + Z.of_nat (List.length rem) * batch_size)
    (fun _ _ => False))
    with (starts := starts) (st := init) as (f & Hf & Hpost).
  - intros s rest st [Hc Hcov] _.
    pose proof (payload_length_exact st s Hexact Hbs ltac:(lia)) as Hlen.
    fold payload_of. unfold completed. cbn [record_count].
    fold payload_of. rewrite Hlen.
    unfold current_batch_size. fold target.
    cbn [List.length] in Hcov. split; [lia|]. nia.
  - intros s rest st k site [Hc Hcov] Hk _ Hstop.
    pose proof (payload_length_exact st s Hexact Hbs ltac:(lia)) as Hlen.
    fold payload_of in Hk.
    assert (Hbelow : record_count (cut_of st s k) < target).
    { unfold cut_of, cut. cbn [record_count].
      unfold current_batch_size in Hlen. fold target in Hlen. lia. }
    fold (cut_of st s k) in Hstop.
    destruct site; simpl in Hstop.
    + subst dry_run. discriminate.
    + destruct Hstop as [_ Hreached].
      rewrite (limit_open_below_target total_records _ _ Hl Hbelow) in Hreached.
      discriminate.
  - simpl. lia.
  - destruct f as [st|site st]; [|contradiction].
    exists st. split; [exact Hf|]. simpl in Hpost. lia.
Qed.
End Counting.

(** With a record limit of 0 no article is ever processed. *)
Lemma zero_limit_run
    (efetch : efetch_params -> node) (api_key web_env query_key : string)
    (total_records batch_size : Z) (dry_run : bool) :
  batch_size <> 0 ->
  exists f,
    run efetch api_key web_env query_key total_records (Some 0) batch_size
        dry_run = Ok f /\
    article_data (state_of f) = [] /\ record_count (state_of f) = 0.
Proof.
  intros Hbs.
  destruct (run_unfold efetch api_key web_env query_key total_records
              (Some 0) batch_size dry_run Hbs) as (starts & _ & ->).
  assert (Hblocked : forall st s k,
            record_count st = 0 ->
            (forall j, (j < k)%nat ->
               preview_reached dry_run
                 (cut efetch api_key web_env query_key total_records (Some 0)
                      batch_size st s j) = false /\
               limit_reached (Some 0)
                 (cut efetch api_key web_env query_key total_records (Some 0)
                      batch_size st s j) = false) ->
            k = 0%nat).
  { intros st s [|k] Hc Hbefore; [reflexivity|].
    destruct (Hbefore 0%nat ltac:(lia)) as [_ Hl].
    unfold limit_reached, cut in Hl. simpl in Hl.
    rewrite Hc in Hl. discriminate. }
  destruct (batches_rule efetch api_key web_env query_key total_records
              (Some 0) batch_size dry_run
              (fun _ st => article_data st = [] /\ record_count st = 0)
              (fun _ st => article_data st = [] /\ record_count st = 0))
    with (starts := starts) (st := init) as (f & Hf & Hpost).
  - intros s rest st [Hd Hc] Hbefore.
    apply Hblocked in Hbefore; [|exact Hc].
    apply length_zero_iff_nil in Hbefore.
    unfold completed. rewrite Hbefore. simpl.
    rewrite app_nil_r, Hd, Hc. split; reflexivity.
  - intros s rest st k site [Hd Hc] _ Hbefore _.
    apply Hblocked in Hbefore; [|exact Hc]. subst k.
    unfold cut. simpl. rewrite app_nil_r, Hd, Hc. split; reflexivity.
  - split; reflexivity.
  - exists f. split; [exact Hf|]. destruct f; exact Hpost.
Qed.

(** C2, as the code has it: without dry-run, when every fetch returns
    exactly the number of articles requested, a run with record limit
    [l >= 0] over a total of [t >= 0] processes [min l t] articles, and
    a run without record limit processes [t]. *)
Theorem processed_count
    (efetch : efetch_params -> node) (api_key web_env query_key : string)
    (total_records : Z) (record_limit : option Z) (batch_size : Z) :
  0 < batch_size -> 0 <= total_records ->
  match record_limit with Some l => 0 <= l | None => True end ->
  exact efetch ->
  exists f,
    run efetch api_key web_env query_key total_records record_limit
        batch_size false = Ok f /\
    record_count (state_of f) =
      match record_limit with
      | Some l => Z.min l total_records
      | None => total_records
      end.
Proof.
  intros Hbs HT HL Hexact.
  destruct record_limit as [l|].
  - destruct (Z.eq_dec l 0) as [->|Hl].
    + destruct (zero_limit_run efetch api_key web_env query_key total_records
                  batch_size false ltac:(lia)) as (f & Hf & _ & Hc).
      exists f. split; [exact Hf|]. rewrite Hc. lia.
    + destruct (exact_run_reaches_target efetch api_key web_env query_key
                  total_records (Some l) batch_size false eq_refl Hl Hexact Hbs)
        as (st & Hf & Hc).
      { rewrite (target_limit total_records l Hl). lia. }
      exists (Next st). split; [exact Hf|]. simpl. rewrite Hc.
      rewrite (target_limit total_records l Hl).
      apply Z.min_comm.
  - destruct (exact_run_reaches_target efetch api_key web_env query_key
                total_records None batch_size false eq_refl I Hexact Hbs HT)
      as (st & Hf & Hc).
    exists (Next st). split; [exact Hf|]. exact Hc.
Qed.

(** The sample services do what their names say. *)
Lemma articles_of_document (articles : list node) :
  Forall (fun a => is_tag "PubmedArticle" a = true /\
                   find_all "PubmedArticle" a = []) articles ->
  find_all "PubmedArticle" (Sample.document articles) = articles.
Proof.
  intros H. unfold find_all, Sample.document. simpl.
  rewrite app_nil_r.
  induction H as [|a l [Htag Hnone] _ IH]; simpl; [reflexivity|].
  rewrite Htag, filter_app. unfold find_all in Hnone.
  rewrite Hnone, IH. reflexivity.
Qed.

Lemma exact_server_exact (a : node) :
  is_tag "PubmedArticle" a = true ->
  find_all "PubmedArticle" a = [] ->
  exact (Sample.exact_server a).
Proof.
  intros Htag Hnone p Hp. unfold articles_of, Sample.exact_server.
  rewrite articles_of_document.
  - rewrite repeat_length. lia.
  - apply Forall_forall. intros x Hx. apply repeat_spec in Hx. now subst x.
Qed.

Lemma processed_count_witness :
  exists f,
    run (Sample.exact_server Sample.paper)
        "key" "env" "1" 1000 (Some 50) 500 false = Ok f /\
    record_count (state_of f) = Z.min 50 1000.
Proof.
  apply (processed_count
           (Sample.exact_server Sample.paper)
           "key" "env" "1" 1000 (Some 50) 500).
  - lia.
  - lia.
  - simpl. lia.
  - apply exact_server_exact; reflexivity.
Defined.

(** C2 fails as stated in a dry run: with a total of 20, a limit of 15
    and a service that returns exactly what is asked for, one author per
    article, the run returns in front of the eleventh article, having
    processed 10 and not min(15, 20). *)
Lemma processed_count_counterexample :
  exact (Sample.exact_server (Sample.article [Sample.author])) /\
  ~ (forall f,
       run (Sample.exact_server (Sample.article [Sample.author]))
           "key" "env" "1" 20 (Some 15) 500 true = Ok f ->
       record_count (state_of f) = Z.min 15 20).
Proof.
  split; [apply exact_server_exact; reflexivity|].
  intros H.
  destruct (run (Sample.exact_server (Sample.article [Sample.author]))
                "key" "env" "1" 20 (Some 15) 500 true) as [f|e] eqn:Hrun;
    [|vm_compute in Hrun; discriminate].
  specialize (H f eq_refl).
  vm_compute in Hrun. injection Hrun as <-. vm_compute in H. discriminate.
Qed.

(* ================================================================= *)
(** ** The progress bar *)

Lemma sum_snoc (l : list Z) (u : Z) :
  fold_right Z.add 0 (l ++ [u]) = fold_right Z.add 0 l + u.
Proof. induction l as [|x l IH]; simpl; [lia|rewrite IH; lia]. Qed.





(* ================================================================= *)
(** ** [record_count] at every point of a run *)

Section Trace.
Variable efetch : efetch_params -> node.
Variables api_key web_env query_key : string.
Variable total_records : Z.
Variable record_limit : option Z.
Variable batch_size : Z.
Variable dry_run : bool.

Let process := process_article record_limit dry_run.
Let batch :=
  fetch_batch efetch api_key web_env query_key total_records record_limit
              batch_size dry_run.
Let states :=
  batch_states efetch api_key web_env query_key total_records record_limit
               batch_size dry_run.
Let payload_of :=
  payload efetch api_key web_env query_key total_records record_limit
          batch_size.
Let cut_of :=
  cut efetch api_key web_env query_key total_records record_limit batch_size.
Let completed_of :=
  completed efetch api_key web_env query_key total_records record_limit
            batch_size.
Let entered (st : state) (s : Z) : state :=
  mkState (article_data st) (record_count st) (pbar st)
          (requests st
             ++ [window api_key web_env query_key total_records
                        record_limit batch_size st s]).

Lemma batch_states_cons (st : state) (s : Z) (rest : list Z) :
  states st (s :: rest) =
  entered st s :: for_states process (entered st s) (payload_of st s)
  ++ match batch st s with
     | Ok (Next st') => st' :: states st' rest
     | _ => []
     end.
Proof. reflexivity. Qed.

Lemma fetch_batch_unfold (st : state) (s : Z) :
  batch st s =
  match for_each process (entered st s) (payload_of st s) with
  | Ok (Next st2) =>
      Ok (Next (mkState (article_data st2) (record_count st2)
                  (pbar st2
                     ++ [current_batch_size total_records record_limit
                           batch_size st])
                  (requests st2)))
  | Ok (Return site st2) => Ok (Return site st2)
  | Raise e => Raise e
  end.
Proof. reflexivity. Qed.

(** [B] holds between windows, [A] inside a window with the articles
    still to come, [P] is what is claimed of every state. *)
Lemma batch_states_rule (B : state -> Prop) (A : list node -> state -> Prop)
                        (P : state -> Prop) :
  (forall st s, B st -> A (payload_of st s) (entered st s)) ->
  (forall a rem s s',
      A (a :: rem) s -> process s a = Ok (Next s') -> A rem s') ->
  (forall st s,
      B st ->
      (forall j, (j < List.length (payload_of st s))%nat ->
         preview_reached dry_run (cut_of st s j) = false /\
         limit_reached record_limit (cut_of st s j) = false) ->
      B (completed_of st s)) ->
  (forall rem s, A rem s -> P s) ->
  (forall st, B st -> P st) ->
  forall starts st, B st -> Forall P (states st starts).
Proof.
  intros Henter Hstep Hleave HPA HPB starts.
  induction starts as [|s rest IH]; intros st HB.
  - constructor.
  - rewrite batch_states_cons.
    constructor; [eapply HPA, Henter, HB|].
    apply Forall_app. split.
    + eapply (for_states_rule process A P); eauto.
    + destruct (fetch_batch_shape efetch api_key web_env query_key
                  total_records record_limit batch_size dry_run st s)
        as (k & f & Hb & Hbefore & Hshape).
      fold batch in Hb. rewrite Hb.
      destruct f as [st'|site st']; [|constructor].
      destruct Hshape as [-> ->].
      assert (HB' : B (completed_of st s)) by (apply Hleave; assumption).
      constructor; [apply HPB, HB'|apply IH, HB'].
Qed.

(** The state a run ends in is one of those it passed through. *)
Lemma batch_final_visited (starts : list Z) :
  forall st f,
    for_each batch st starts = Ok f ->
    In (state_of f) (st :: states st starts).
Proof.
  induction starts as [|s rest IH]; intros st f Hrun.
  - simpl in Hrun. injection Hrun as <-. now left.
  - right. rewrite batch_states_cons. simpl in Hrun.
    rewrite fetch_batch_unfold in Hrun |- *.
    destruct (for_each process (entered st s) (payload_of st s))
      as [[st2|site st2]|e] eqn:Hin; try discriminate.
    + apply (IH _ f) in Hrun.
      apply in_cons, in_or_app. right. exact Hrun.
    + injection Hrun as <-. simpl.
      pose proof (for_each_final_visited process
                    (process_article_return record_limit dry_run)
                    _ _ _ Hin) as Hv.
      simpl in Hv. destruct Hv as [Hv|Hv]; [left; exact Hv|].
      right. apply in_or_app. left. exact Hv.
Qed.
End Trace.

(** Whatever the service returns, [record_count] stays within a limit
    that is given. *)
Lemma limit_bounds_states
    (efetch : efetch_params -> node) (api_key web_env query_key : string)
    (total_records l batch_size : Z) (dry_run : bool) :
  forall starts st,
    record_count st <= l ->
    Forall (fun s => record_count s <= l)
           (batch_states efetch api_key web_env query_key total_records
                         (Some l) batch_size dry_run st starts).
Proof.
  apply (batch_states_rule efetch api_key web_env query_key total_records
           (Some l) batch_size dry_run
           (fun s => record_count s <= l)
           (fun _ s => record_count s <= l)
           (fun s => record_count s <= l)); auto.
  - intros a rem s s' Hs Hstep.
    apply process_article_next in Hstep as (_ & Hopen & ->).
    unfold limit_reached in Hopen. cbn [record_count].
    destruct (Z.leb_spec l (record_count s)); [discriminate|lia].
  - intros st s Hst Hbefore. unfold completed. cbn [record_count].
    destruct (List.length
                (payload efetch api_key web_env query_key total_records
                         (Some l) batch_size st s)) as [|j] eqn:Hlen;
      [lia|].
    destruct (Hbefore j ltac:(lia)) as [_ Hopen].
    unfold limit_reached, cut in Hopen. cbn [record_count] in Hopen.
    destruct (Z.leb_spec l (record_count st + Z.of_nat j));
      [discriminate|lia].
Qed.

(** When the service returns no more than was asked for,
    [record_count] stays within the retrieval target. *)
Lemma target_bounds_states
    (efetch : efetch_params -> node) (api_key web_env query_key : string)
    (total_records : Z) (record_limit : option Z) (batch_size : Z)
    (dry_run : bool) :
  bounded efetch -> 0 < batch_size ->
  forall starts st,
    record_count st <= total_to_retrieve total_records record_limit ->
    Forall (fun s =>
              record_count s <= total_to_retrieve total_records record_limit)
           (batch_states efetch api_key web_env query_key total_records
                         record_limit batch_size dry_run st starts).
Proof.
  intros Hb Hbs.
  set (target := total_to_retrieve total_records record_limit).
  apply (batch_states_rule efetch api_key web_env query_key total_records
           record_limit batch_size dry_run
           (fun s => record_count s <= target)
           (fun rem s =>
              record_count s + Z.of_nat (List.length rem) <= target)
           (fun s => record_count s <= target)); auto.
  - intros st s Hst. cbn [record_count].
    pose proof (payload_length_bounded efetch api_key web_env query_key
                  total_records record_limit batch_size st s Hb Hbs Hst).
    unfold current_batch_size in H. fold target in H. lia.
  - intros a rem s s' Hs Hstep.
    apply process_article_next in Hstep as (_ & _ & ->).
    cbn [record_count List.length] in Hs |- *. lia.
  - intros st s Hst _. unfold completed. cbn [record_count].
    pose proof (payload_length_bounded efetch api_key web_env query_key
                  total_records record_limit batch_size st s Hb Hbs Hst).
    unfold current_batch_size in H. fold target in H. lia.
  - intros rem s Hs. lia.
Qed.

(** C5, as the code has it: at every point of a run [record_count] is
    at most the record limit when one is given, whatever the payloads
    hold; and it is at most min(total, limit), or the total when no
    limit is given, when no payload holds more articles than were
    requested: the total count is compared with nothing but the window
    offsets. *)
Theorem record_count_bounds
    (efetch : efetch_params -> node) (api_key web_env query_key : string)
    (total_records : Z) (record_limit : option Z) (batch_size : Z)
    (dry_run : bool) :
  0 < batch_size -> 0 <= total_records ->
  match record_limit with Some l => 0 <= l | None => True end ->
  let visited :=
    run_states efetch api_key web_env query_key total_records record_limit
               batch_size dry_run in
  (exists f,
     run efetch api_key web_env query_key total_records record_limit
         batch_size dry_run = Ok f /\
     In (state_of f) visited) /\
  (forall l, record_limit = Some l ->
             Forall (fun st => record_count st <= l) visited) /\
  (bounded efetch ->
   Forall (fun st =>
             record_count st <=
             match record_limit with
             | Some l => Z.min total_records l
             | None => total_records
             end) visited).
Proof.
  intros Hbs HT HL visited. subst visited.
  destruct (run_unfold efetch api_key web_env query_key total_records
              record_limit batch_size dry_run ltac:(lia))
    as (starts & Hr & Hrun).
  unfold run_states. rewrite Hr, Hrun.
  assert (Hlimit : forall l, record_limit = Some l ->
            Forall (fun st => record_count st <= l)
              (init :: batch_states efetch api_key web_env query_key
                         total_records record_limit batch_size dry_run
                         init starts)).
  { intros l El. rewrite El in HL |- *.
    constructor; [exact HL|]. apply limit_bounds_states. exact HL. }
  split; [|split].
  - destruct (for_each_total _
                (fetch_batch_total efetch api_key web_env query_key
                   total_records record_limit batch_size dry_run)
                starts init) as [f Hf].
    exists f. split; [exact Hf|]. now apply batch_final_visited.
  - exact Hlimit.
  - intros Hb.
    assert (Htarget : Forall (fun st =>
              record_count st <= total_to_retrieve total_records record_limit)
              (init :: batch_states efetch api_key web_env query_key
                         total_records record_limit batch_size dry_run
                         init starts)).
    { assert (H0 : record_count init <=
                   total_to_retrieve total_records record_limit).
      { unfold total_to_retrieve, limit_given. simpl.
        destruct record_limit as [l|]; [|exact HT].
        destruct (l =? 0); simpl; lia. }
      constructor; [exact H0|]. now apply target_bounds_states. }
    destruct record_limit as [l|] eqn:El; [|exact Htarget].
    destruct (Z.eq_dec l 0) as [->|Hl].
    + eapply Forall_impl; [|exact (Hlimit 0 eq_refl)].
      intros st Hst. simpl in Hst. lia.
    + rewrite (target_limit total_records l Hl) in Htarget. exact Htarget.
Qed.

Lemma record_count_bounds_witness :
  (exists f,
     run (Sample.exact_server Sample.paper) "key" "env" "1" 1200 (Some 700)
         500 false = Ok f /\
     In (state_of f)
        (run_states (Sample.exact_server Sample.paper) "key" "env" "1" 1200
                    (Some 700) 500 false)) /\
  (forall l, Some 700 = Some l ->
             Forall (fun st => record_count st <= l)
               (run_states (Sample.exact_server Sample.paper) "key" "env" "1"
                           1200 (Some 700) 500 false)) /\
  Forall (fun st => record_count st <= Z.min 1200 700)
    (run_states (Sample.exact_server Sample.paper) "key" "env" "1" 1200
                (Some 700) 500 false).
Proof.
  destruct (record_count_bounds (Sample.exact_server Sample.paper)
              "key" "env" "1" 1200 (Some 700) 500
              false ltac:(lia) ltac:(lia) ltac:(simpl; lia))
    as (Hend & Hlimit & Htarget).
  split; [exact Hend|]. split; [exact Hlimit|].
  apply Htarget. apply exact_bounded, exact_server_exact; reflexivity.
Defined.

(** C5 fails as stated for a payload with more articles than requested:
    asked for 1 article of a total of 1, the service sends 2, and both
    are processed, without a limit as well as with a limit of 5. *)
Lemma record_count_bounds_counterexample :
  (exists st,
     run (Sample.fixed_server Sample.pair) "key" "env" "1" 1 None 500 false
       = Ok (Next st) /\
     map p_retmax (requests st) = [1] /\
     ~ record_count st <= 1) /\
  (exists st,
     run (Sample.fixed_server Sample.pair) "key" "env" "1" 1 (Some 5) 500
         false = Ok (Next st) /\
     map p_retmax (requests st) = [1] /\
     ~ record_count st <= Z.min 1 5).
Proof.
  split; eexists; (split; [vm_compute; reflexivity|]);
    (split; [reflexivity|]); vm_compute; intros H; apply H; reflexivity.
Qed.

(* ================================================================= *)
(** ** Beyond the claims: [get_total_records] *)

(** X1: [get_total_records] returns a session exactly when the response
    holds a Count whose text [int] accepts, a WebEnv and a QueryKey; the
    session then carries that number and the texts of the two tokens,
    and one request was sent. *)
Theorem get_total_records_returns
    (esearch : params -> node) (py_int : string -> option Z)
    (api_key keyword start_date : string) (end_date : option string)
    (s : session) :
  let request := esearch_params api_key keyword start_date end_date in
  let soup := esearch request in
  get_total_records esearch py_int api_key keyword start_date end_date =
  ([request], Ok s) <->
  exists c w q z,
    find "Count" soup = Some c /\ py_int (text c) = Some z /\
    find "WebEnv" soup = Some w /\ find "QueryKey" soup = Some q /\
    s = mkSession z (text w) (text q).
Proof.
  intros request soup.
  unfold get_total_records, parse_session. fold request. fold soup.
  split.
  - intros H. injection H as H.
    destruct (find "Count" soup) as [c|]; simpl in H; [|discriminate].
    unfold int_of in H.
    destruct (py_int (text c)) as [z|] eqn:Hz; simpl in H; [|discriminate].
    destruct (find "WebEnv" soup) as [w|]; simpl in H; [|discriminate].
    destruct (find "QueryKey" soup) as [q|]; simpl in H; [|discriminate].
    injection H as <-. exists c, w, q, z. auto.
  - intros (c & w & q & z & -> & Hz & -> & -> & ->). simpl.
    unfold int_of. rewrite Hz. reflexivity.
Qed.

(* ================================================================= *)
(** ** Beyond the claims: when a run raises, when it fetches nothing *)

(** X2: [fetch_articles_in_batches] raises only for a batch size of 0,
    and then it is the [ValueError] of [range]; with any other batch
    size it returns rows, whatever the service answers. *)
Theorem fetch_raises_iff_zero_batch
    (efetch : efetch_params -> node) (api_key web_env query_key : string)
    (total_records : Z) (record_limit : option Z) (batch_size : Z)
    (dry_run : bool) (e : exn) :
  fetch_articles_in_batches efetch api_key web_env query_key total_records
    record_limit batch_size dry_run = Raise e <->
  batch_size = 0 /\ e = ValueError.
Proof.
  unfold fetch_articles_in_batches. split.
  - intros H. destruct (Z.eq_dec batch_size 0) as [->|Hbs].
    + unfold run, range in H. simpl in H. injection H as <-. auto.
    + destruct (run_unfold efetch api_key web_env query_key total_records
                  record_limit batch_size dry_run Hbs) as (starts & _ & Hrun).
      destruct (for_each_total _
                  (fetch_batch_total efetch api_key web_env query_key
                     total_records record_limit batch_size dry_run)
                  starts init) as [f Hf].
      rewrite Hrun, Hf in H. discriminate.
  - intros [-> ->]. reflexivity.
Qed.

(** X3: when there is nothing to retrieve (a target of 0 or less with a
    positive batch size) the run sends no request, advances no progress
    bar and returns no rows. *)
Theorem empty_target_sends_nothing
    (efetch : efetch_params -> node) (api_key web_env query_key : string)
    (total_records : Z) (record_limit : option Z) (batch_size : Z)
    (dry_run : bool) :
  0 < batch_size ->
  total_to_retrieve total_records record_limit <= 0 ->
  run efetch api_key web_env query_key total_records record_limit batch_size
      dry_run = Ok (Next init) /\
  fetch_articles_in_batches efetch api_key web_env query_key total_records
    record_limit batch_size dry_run = Ok [].
Proof.
  intros Hbs Ht.
  assert (Hrun : run efetch api_key web_env query_key total_records
                     record_limit batch_size dry_run = Ok (Next init)).
  { unfold run, range, range_length.
    destruct (Z.eqb_spec batch_size 0); [lia|].
    destruct (Z.ltb_spec 0 batch_size); [|lia].
    destruct (Z.ltb_spec 0 (total_to_retrieve total_records record_limit));
      [lia|]. reflexivity. }
  split; [exact Hrun|].
  unfold fetch_articles_in_batches. rewrite Hrun. reflexivity.
Qed.

Lemma empty_target_sends_nothing_witness :
  run (Sample.exact_server Sample.paper) "key" "env" "1" 0 (Some 50) 500 false
    = Ok (Next init) /\
  fetch_articles_in_batches (Sample.exact_server Sample.paper)
    "key" "env" "1" 0 (Some 50) 500 false = Ok [].
Proof.
  apply (empty_target_sends_nothing (Sample.exact_server Sample.paper)
           "key" "env" "1" 0 (Some 50) 500 false).
  - lia.
  - simpl. lia.
Defined.

(* ================================================================= *)
(** ** Beyond the claims: what the returned rows are *)

(** X4: in every run, dry or not, limited or not, the rows returned are
    the rows of the first [record_count] articles received, article by
    article in the order received and author by author within an
    article: no article is skipped, reordered or cut, and a run that
    reaches the final [return] has processed every article received. *)
Theorem rows_in_encounter_order
    (efetch : efetch_params -> node) (api_key web_env query_key : string)
    (total_records : Z) (record_limit : option Z) (batch_size : Z)
    (dry_run : bool) :
  batch_size <> 0 ->
  exists f n,
    run efetch api_key web_env query_key total_records record_limit
        batch_size dry_run = Ok f /\
    record_count (state_of f) = Z.of_nat n /\
    (n <= List.length (stream efetch (state_of f)))%nat /\
    fetch_articles_in_batches efetch api_key web_env query_key total_records
      record_limit batch_size dry_run =
    Ok (flat_map (fun article =>
                    map (row_of article) (find_all "Author" article))
                 (firstn n (stream efetch (state_of f)))) /\
    (forall st, f = Next st -> n = List.length (stream efetch st)).
Proof.
  intros Hbs.
  destruct (run_processed efetch api_key web_env query_key total_records
              record_limit batch_size dry_run Hbs)
    as (f & Hf & Hrange & Hdata & Hend).
  exists f, (Z.to_nat (record_count (state_of f))).
  split; [exact Hf|]. split; [lia|]. split; [lia|]. split.
  - unfold fetch_articles_in_batches. rewrite Hf. simpl.
    rewrite Hdata at 1. reflexivity.
  - intros st ->. simpl in *. rewrite Hend. apply Nat2Z.id.
Qed.

Lemma rows_in_encounter_order_witness :
  exists f n,
    run (Sample.fixed_server Sample.scenario) "key" "env" "1" 3 (Some 2) 500
        true = Ok f /\
    record_count (state_of f) = Z.of_nat n /\
    (n <= List.length
            (stream (Sample.fixed_server Sample.scenario) (state_of f)))%nat /\
    fetch_articles_in_batches (Sample.fixed_server Sample.scenario)
      "key" "env" "1" 3 (Some 2) 500 true =
    Ok (flat_map (fun article =>
                    map (row_of article) (find_all "Author" article))
                 (firstn n (stream (Sample.fixed_server Sample.scenario)
                                   (state_of f)))) /\
    (forall st, f = Next st ->
       n = List.length (stream (Sample.fixed_server Sample.scenario) st)).
Proof.
  apply (rows_in_encounter_order (Sample.fixed_server Sample.scenario)
           "key" "env" "1" 3 (Some 2) 500 true).
  lia.
Defined.

(** X5: what an early return means.  A run that leaves through the
    dry-run [return] is a dry run holding 10 rows or more; a run that
    leaves through the record-limit [return] has a limit, has reached it
    (exactly, when the limit is not negative) and, if dry, holds fewer
    than 10 rows.  Either way the window in progress was requested and
    its progress update was not made. *)
Theorem early_return_meaning
    (efetch : efetch_params -> node) (api_key web_env query_key : string)
    (total_records : Z) (record_limit : option Z) (batch_size : Z)
    (dry_run : bool) (site : return_site) (st : state) :
  run efetch api_key web_env query_key total_records record_limit batch_size
      dry_run = Ok (Return site st) ->
  match site with
  | PreviewReached => dry_run = true /\ 10 <= len (article_data st)
  | LimitReached =>
      exists l, record_limit = Some l /\ l <= record_count st /\
                (0 <= l -> record_count st = l) /\
                (dry_run = true -> len (article_data st) < 10)
  end /\
  List.length (requests st) = S (List.length (pbar st)).
Proof.
  intros Hrun.
  assert (Hbs : batch_size <> 0).
  { intros ->. unfold run, range in Hrun. discriminate. }
  destruct (run_unfold efetch api_key web_env query_key total_records
              record_limit batch_size dry_run Hbs) as (starts & Hr & Hrun').
  rewrite Hrun' in Hrun.
  split.
  - destruct (run_processed efetch api_key web_env query_key total_records
                record_limit batch_size dry_run Hbs)
      as (f & Hf & _ & _ & Hend).
    rewrite Hrun', Hrun in Hf. injection Hf as <-. simpl in Hend.
    destruct site; simpl in Hend.
    + unfold preview_reached, preview_limit in Hend.
      destruct dry_run; [|discriminate]. simpl in Hend.
      split; [reflexivity|].
      destruct (Z.leb_spec 10 (len (article_data st))); [auto|discriminate].
    + destruct Hend as [Hopen Hreached]. unfold limit_reached in Hreached.
      destruct record_limit as [l|]; [|discriminate].
      exists l. split; [reflexivity|].
      destruct (Z.leb_spec l (record_count st)) as [Hle|]; [|discriminate].
      split; [exact Hle|]. split.
      * intros Hl.
        pose proof (batch_final_visited efetch api_key web_env query_key
                      total_records (Some l) batch_size dry_run starts init
                      _ Hrun) as Hin.
        pose proof (limit_bounds_states efetch api_key web_env query_key
                      total_records l batch_size dry_run starts init Hl)
          as Hall.
        simpl in Hin. destruct Hin as [<-|Hin]; [simpl in *; lia|].
        rewrite Forall_forall in Hall. specialize (Hall _ Hin). lia.
      * intros ->. now apply preview_open.
  - destruct (batches_rule efetch api_key web_env query_key total_records
                record_limit batch_size dry_run
                (fun _ s => List.length (requests s) = List.length (pbar s))
                (fun _ s =>
                   List.length (requests s) = S (List.length (pbar s))))
      with (starts := starts) (st := init) as (f & Hf & Hpost).
    + intros s rest s0 Hlen _. unfold completed. simpl.
      rewrite !length_app, Hlen. reflexivity.
    + intros s rest s0 k site' Hlen _ _ _. unfold cut. simpl.
      rewrite length_app, Hlen. simpl. lia.
    + reflexivity.
    + rewrite Hrun in Hf. injection Hf as <-. exact Hpost.
Qed.

Lemma early_return_meaning_witness :
  exists st,
    (exists l, Some 2 = Some l /\ l <= record_count st /\
               (0 <= l -> record_count st = l) /\
               (true = true -> len (article_data st) < 10)) /\
    List.length (requests st) = S (List.length (pbar st)).
Proof.
  eexists.
  apply (early_return_meaning (Sample.fixed_server Sample.scenario)
           "key" "env" "1" 3 (Some 2) 500 true LimitReached).
  vm_compute. reflexivity.
Defined.

(** X6: without dry-run, a run with a record limit [l >= 0] processes
    as many articles as it received or [l] of them, whichever is less,
    whatever the service answers. *)
Theorem limit_or_supply
    (efetch : efetch_params -> node) (api_key web_env query_key : string)
    (total_records l batch_size : Z) :
  batch_size <> 0 -> 0 <= l ->
  exists f,
    run efetch api_key web_env query_key total_records (Some l) batch_size
        false = Ok f /\
    record_count (state_of f) =
      Z.min l (Z.of_nat (List.length (stream efetch (state_of f)))).
Proof.
  intros Hbs Hl.
  destruct (run_processed efetch api_key web_env query_key total_records
              (Some l) batch_size false Hbs)
    as (f & Hf & Hrange & _ & Hend).
  exists f. split; [exact Hf|].
  destruct (run_unfold efetch api_key web_env query_key total_records
              (Some l) batch_size false Hbs) as (starts & _ & Hrun).
  rewrite Hrun in Hf.
  pose proof (batch_final_visited efetch api_key web_env query_key
                total_records (Some l) batch_size false starts init _ Hf)
    as Hin.
  pose proof (limit_bounds_states efetch api_key web_env query_key
                total_records l batch_size false starts init Hl) as Hall.
  assert (Hle : record_count (state_of f) <= l).
  { simpl in Hin. destruct Hin as [<-|Hin]; [exact Hl|].
    rewrite Forall_forall in Hall. exact (Hall _ Hin). }
  simpl in Hrange.
  destruct f as [st|site st]; simpl in *.
  - lia.
  - destruct site; simpl in Hend; [discriminate|].
    destruct Hend as [_ Hreached]. unfold limit_reached in Hreached.
    destruct (Z.leb_spec l (record_count st)); [lia|discriminate].
Qed.

Lemma limit_or_supply_witness :
  exists f,
    run (Sample.fixed_server Sample.mixed) "key" "env" "1" 40 (Some 7) 500
        false = Ok f /\
    record_count (state_of f) =
      Z.min 7 (Z.of_nat
                 (List.length
                    (stream (Sample.fixed_server Sample.mixed) (state_of f)))).
Proof.
  apply (limit_or_supply (Sample.fixed_server Sample.mixed)
           "key" "env" "1" 40 7 500); lia.
Defined.

(* ================================================================= *)
(** ** Beyond the claims: the requests of a run *)

(** X7: whatever the service answers, the fetch requests go out at the
    offsets of [range(0, target, batch_size)], in that order, none
    skipped and none repeated; each carries the session tokens and the
    key and asks for at most [batch_size] records.  A run that reaches
    the final [return] has requested every offset and advanced the
    progress bar once per request, by the size that request asked for;
    a run that returns early has at least one request, and has advanced
    the bar once per request but the last, by the sizes those asked
    for. *)
Theorem requests_follow_range
    (efetch : efetch_params -> node) (api_key web_env query_key : string)
    (total_records : Z) (record_limit : option Z) (batch_size : Z)
    (dry_run : bool) :
  batch_size <> 0 ->
  exists starts f later,
    range 0 (total_to_retrieve total_records record_limit) batch_size =
    Ok starts /\
    run efetch api_key web_env query_key total_records record_limit
        batch_size dry_run = Ok f /\
    starts = map p_retstart (requests (state_of f)) ++ later /\
    Forall (fun p =>
              p = request api_key web_env query_key (p_retstart p)
                          (p_retmax p) /\
              p_retmax p <= batch_size)
           (requests (state_of f)) /\
    match f with
    | Next st => later = [] /\ pbar st = map p_retmax (requests st)
    | Return _ st =>
        exists reqs p,
          requests st = reqs ++ [p] /\ pbar st = map p_retmax reqs
    end.
Proof.
  intros Hbs.
  destruct (run_anatomy efetch api_key web_env query_key total_records
              record_limit batch_size dry_run Hbs)
    as (starts & f & later & Hr & Hf & Hs & Hall & n & _ & _ & _ & _ & Hend).
  exists starts, f, later.
  split; [exact Hr|]. split; [exact Hf|]. split; [exact Hs|].
  split; [exact Hall|].
  destruct f as [st|site st].
  - destruct Hend as (Hl & Hbar & _). auto.
  - destruct Hend as (_ & reqs & p & Hq & Hbar & _). exists reqs, p. auto.
Qed.

Lemma requests_follow_range_witness :
  exists starts f later,
    range 0 (total_to_retrieve 1200 (Some 700)) 500 = Ok starts /\
    run (Sample.fixed_server Sample.mixed) "key" "env" "1" 1200 (Some 700)
        500 true = Ok f /\
    starts = map p_retstart (requests (state_of f)) ++ later /\
    Forall (fun p =>
              p = request "key" "env" "1" (p_retstart p) (p_retmax p) /\
              p_retmax p <= 500)
           (requests (state_of f)) /\
    match f with
    | Next st => later = [] /\ pbar st = map p_retmax (requests st)
    | Return _ st =>
        exists reqs p,
          requests st = reqs ++ [p] /\ pbar st = map p_retmax reqs
    end.
Proof.
  apply (requests_follow_range (Sample.fixed_server Sample.mixed)
           "key" "env" "1" 1200 (Some 700) 500 true).
  lia.
Defined.

Lemma range_offsets (stop step : Z) :
  0 < step -> 0 <= stop ->
  exists n,
    range 0 stop step = Ok (map (fun i => Z.of_nat i * step) (seq 0 n)) /\
    (forall i, (i < n)%nat -> Z.of_nat i * step < stop) /\
    stop <= Z.of_nat n * step.
Proof.
  intros Hstep Hstop. unfold range, range_length.
  destruct (Z.eqb_spec step 0) as [|_]; [lia|].
  destruct (Z.ltb_spec 0 step) as [_|]; [|lia].
  destruct (Z.ltb_spec 0 stop) as [Hpos|].
  - exists (Z.to_nat ((stop - 0 - 1) / step + 1)).
    replace (stop - 0 - 1) with (stop - 1) by lia.
    pose proof (Z.div_pos (stop - 1) step ltac:(lia) Hstep) as Hq.
    pose proof (Z.mod_pos_bound (stop - 1) step Hstep) as Hr.
    pose proof (Z.div_mod (stop - 1) step ltac:(lia)) as Hdm.
    split; [|split].
    + reflexivity.
    + intros i Hi. nia.
    + rewrite Z2Nat.id by lia. nia.
  - exists 0%nat. split; [reflexivity|]. split; [intros i Hi; lia|]. lia.
Qed.

(** X8: without dry-run, with no record limit or a positive one, a
    service that returns exactly what is asked for is read in windows
    that tile the target: window [i] starts at offset [i * batch_size],
    which is the number of articles processed before it, and asks for
    what is left of the target up to [batch_size]; the sizes asked for
    add up to the target, and nothing is requested beyond it. *)
Theorem windows_tile_target
    (efetch : efetch_params -> node) (api_key web_env query_key : string)
    (total_records : Z) (record_limit : option Z) (batch_size : Z) :
  0 < batch_size -> 0 <= total_records ->
  match record_limit with Some l => 0 < l | None => True end ->
  exact efetch ->
  let target := total_to_retrieve total_records record_limit in
  exists n st,
    run efetch api_key web_env query_key total_records record_limit
        batch_size false = Ok (Next st) /\
    requests st =
      map (fun i =>
             request api_key web_env query_key (Z.of_nat i * batch_size)
                     (Z.min batch_size (target - Z.of_nat i * batch_size)))
          (seq 0 n) /\
    (forall i, (i < n)%nat -> Z.of_nat i * batch_size < target) /\
    target <= Z.of_nat n * batch_size /\
    fold_right Z.add 0 (map p_retmax (requests st)) = target.
Proof.
  intros Hbs HT HL Hexact target.
  assert (Htarget : 0 <= target).
  { unfold target. destruct record_limit as [l|]; [|exact HT].
    rewrite target_limit by lia. lia. }
  assert (HL' : match record_limit with Some l => l <> 0 | None => True end).
  { destruct record_limit; [lia|exact I]. }
  destruct (range_offsets target batch_size Hbs Htarget)
    as (n & Hr & Hbelow & Hcover).
  set (f := fun i : nat => Z.of_nat i * batch_size).
  set (W := fun i : nat =>
              request api_key web_env query_key (Z.of_nat i * batch_size)
                      (Z.min batch_size (target - Z.of_nat i * batch_size))).
  unfold run. fold target. rewrite Hr. simpl.
  destruct (batches_rule efetch api_key web_env query_key total_records
              record_limit batch_size false
    (fun rem st =>
       exists k, (k <= n)%nat /\ rem = map f (seq k (n - k)) /\
                 record_count st = Z.min (Z.of_nat k * batch_size) target /\
                 requests st = map W (seq 0 k) /\
                 fold_right Z.add 0 (map p_retmax (requests st)) =
                 record_count st)
    (fun _ _ => False))
    with (starts := map f (seq 0 n)) (st := init) as (r & Hrun & Hpost).
  - intros s rest st (k & Hk & Hrem & Hc & Hreq & Hsum) _.
    destruct (n - k)%nat as [|m] eqn:Hm; [discriminate|].
    simpl in Hrem. injection Hrem as -> ->.
    assert (Hlt : Z.of_nat k * batch_size < target) by (apply Hbelow; lia).
    pose proof (payload_length_exact efetch api_key web_env query_key
                  total_records record_limit batch_size st (f k) Hexact Hbs
                  ltac:(fold target; lia)) as Hlen.
    unfold current_batch_size in Hlen. fold target in Hlen.
    exists (S k). split; [lia|]. split; [f_equal; f_equal; lia|].
    unfold completed. cbn [record_count requests].
    fold (payload efetch api_key web_env query_key total_records record_limit
                  batch_size st (f k)).
    rewrite Hlen, map_app. cbn [map].
    rewrite sum_snoc, Hsum, seq_S, map_app, Hreq.
    unfold window, current_batch_size. fold target.
    cbn [map Nat.add p_retmax request].
    split; [lia|]. split.
    + unfold W, f. rewrite Hc.
      replace (Z.min (Z.of_nat k * batch_size) target)
        with (Z.of_nat k * batch_size) by lia.
      reflexivity.
    + lia.
  - intros s rest st j site (k & Hk & Hrem & Hc & Hreq & Hsum) Hj _ Hstop.
    destruct (n - k)%nat as [|m] eqn:Hm; [discriminate|].
    simpl in Hrem. injection Hrem as -> ->.
    assert (Hlt : Z.of_nat k * batch_size < target) by (apply Hbelow; lia).
    pose proof (payload_length_exact efetch api_key web_env query_key
                  total_records record_limit batch_size st (f k) Hexact Hbs
                  ltac:(fold target; lia)) as Hlen.
    unfold current_batch_size in Hlen. fold target in Hlen.
    destruct site; simpl in Hstop; [discriminate|].
    destruct Hstop as [_ Hreached].
    rewrite (limit_open_below_target total_records) in Hreached;
      [discriminate|exact HL'|].
    unfold cut. cbn [record_count]. fold target. lia.
  - exists 0%nat. rewrite Nat.sub_0_r. repeat split; simpl; lia.
  - destruct r as [st|site st]; [|contradiction].
    destruct Hpost as (k & Hk & Hrem & Hc & Hreq & Hsum).
    assert (k = n) as ->.
    { destruct (n - k)%nat eqn:Hm; [lia|discriminate]. }
    exists n, st. split; [exact Hrun|]. split; [exact Hreq|].
    split; [exact Hbelow|]. split; [exact Hcover|]. lia.
Qed.

Lemma windows_tile_target_witness :
  exists n st,
    run (Sample.exact_server Sample.paper) "key" "env" "1" 1200 None 500 false
      = Ok (Next st) /\
    requests st =
      map (fun i =>
             request "key" "env" "1" (Z.of_nat i * 500)
                     (Z.min 500 (total_to_retrieve 1200 None
                                 - Z.of_nat i * 500)))
          (seq 0 n) /\
    (forall i, (i < n)%nat -> Z.of_nat i * 500 < total_to_retrieve 1200 None) /\
    total_to_retrieve 1200 None <= Z.of_nat n * 500 /\
    fold_right Z.add 0 (map p_retmax (requests st)) =
    total_to_retrieve 1200 None.
Proof.
  apply (windows_tile_target (Sample.exact_server Sample.paper)
           "key" "env" "1" 1200 None 500).
  - lia.
  - lia.
  - exact I.
  - apply exact_server_exact; reflexivity.
Defined.

(* ================================================================= *)
(** ** Beyond the claims: the loop only appends *)

(** X9: from whatever state the loop over the windows is entered, it
    only appends: the rows, the requests and the progress updates it
    leaves are those it found, followed by new ones, [record_count] does
    not decrease, and at most one request per window is sent. *)
Theorem loop_only_appends
    (efetch : efetch_params -> node) (api_key web_env query_key : string)
    (total_records : Z) (record_limit : option Z) (batch_size : Z)
    (dry_run : bool) (st : state) (starts : list Z) :
  exists f rows reqs ups,
    for_each (fetch_batch efetch api_key web_env query_key total_records
                          record_limit batch_size dry_run) st starts = Ok f /\
    article_data (state_of f) = article_data st ++ rows /\
    requests (state_of f) = requests st ++ reqs /\
    pbar (state_of f) = pbar st ++ ups /\
    record_count st <= record_count (state_of f) /\
    (List.length ups <= List.length reqs <= List.length starts)%nat.
Proof.
  destruct (batches_rule efetch api_key web_env query_key total_records
              record_limit batch_size dry_run
    (fun rem s =>
       exists rows reqs ups,
         article_data s = article_data st ++ rows /\
         requests s = requests st ++ reqs /\
         pbar s = pbar st ++ ups /\
         record_count st <= record_count s /\
         (List.length ups <= List.length reqs)%nat /\
         (List.length reqs + List.length rem = List.length starts)%nat)
    (fun _ s =>
       exists rows reqs ups,
         article_data s = article_data st ++ rows /\
         requests s = requests st ++ reqs /\
         pbar s = pbar st ++ ups /\
         record_count st <= record_count s /\
         (List.length ups <= List.length reqs <= List.length starts)%nat))
    with (starts := starts) (st := st) as (f & Hf & Hpost).
  - intros s rest s0 (rows & reqs & ups & Hd & Hq & Hp & Hc & Hu & Hn) _.
    unfold completed. cbn [article_data requests pbar record_count].
    rewrite Hd, Hq, Hp, <- !app_assoc.
    do 3 eexists. split; [reflexivity|]. split; [reflexivity|].
    split; [reflexivity|]. rewrite !length_app. simpl in Hn |- *.
    split; [lia|]. split; lia.
  - intros s rest s0 k site (rows & reqs & ups & Hd & Hq & Hp & Hc & Hu & Hn)
           _ _ _.
    unfold cut. cbn [article_data requests pbar record_count].
    rewrite Hd, Hq, Hp, <- !app_assoc.
    do 3 eexists. split; [reflexivity|]. split; [reflexivity|].
    split; [reflexivity|].
    rewrite !length_app. simpl in Hn |- *. split; [lia|]. split; lia.
  - exists [], [], []. rewrite !app_nil_r. simpl. repeat split; lia.
  - destruct f as [s|site s]; simpl in Hpost |- *.
    + destruct Hpost as (rows & reqs & ups & Hd & Hq & Hp & Hc & Hu & Hn).
      exists (Next s), rows, reqs, ups. simpl in Hn |- *.
      repeat split; auto; lia.
    + destruct Hpost as (rows & reqs & ups & Hd & Hq & Hp & Hc & Hu).
      exists (Return site s), rows, reqs, ups. simpl. repeat split; auto; lia.
Qed.

(* ================================================================= *)
(** ** Beyond the claims: the script as a whole *)

Import Main.



Section ScriptFacts.
Variable esearch : params -> node.
Variable py_int : string -> option Z.
Variable efetch : efetch_params -> node.
Variable can_open : string -> bool.

Let main := main esearch py_int efetch can_open.



(** X11: [--custom_logic] is ignored unless the logic is CUSTOM, and
    with the logic CUSTOM the keywords are ignored: changing the ignored
    option changes nothing of what the script does. *)
Theorem ignored_options (a : args) (custom : option string)
                        (keywords : list string) :
  match arg_logic a with
  | CUSTOM =>
      main (mkArgs (arg_api_key a) keywords (arg_start_date a)
                   (arg_end_date a) (arg_output a) (arg_record_limit a)
                   (arg_logic a) (arg_custom_logic a) (arg_dry_run a)) =
      main a
  | _ =>
      main (mkArgs (arg_api_key a) (arg_keywords a) (arg_start_date a)
                   (arg_end_date a) (arg_output a) (arg_record_limit a)
                   (arg_logic a) custom (arg_dry_run a)) =
      main a
  end.
Proof.
  destruct a as [key ks sd ed out lim lg cl dry]. simpl.
  destruct lg; unfold main, Main.main, keyword_combination; reflexivity.
Qed.



End ScriptFacts.



(* ================================================================= *)
(** ** Beyond the claims: counters against each other *)




(** X16: when the service never returns more than was asked for, the
    progress counter of a run that reaches the final [return] is at
    least the number of articles processed: a short payload leaves the
    bar ahead of the work done, never behind it. *)
Theorem progress_not_behind
    (efetch : efetch_params -> node) (api_key web_env query_key : string)
    (total_records : Z) (record_limit : option Z) (batch_size : Z)
    (dry_run : bool) :
  0 < batch_size -> 0 <= total_records ->
  match record_limit with Some l => 0 <= l | None => True end ->
  bounded efetch ->
  exists f,
    run efetch api_key web_env query_key total_records record_limit
        batch_size dry_run = Ok f /\
    (forall st, f = Next st -> record_count st <= pbar_n st).
Proof.
  intros Hbs HT HL Hb.
  set (target := total_to_retrieve total_records record_limit).
  assert (Htarget : 0 <= target).
  { unfold target, total_to_retrieve, limit_given.
    destruct record_limit as [l|]; [|exact HT].
    destruct (l =? 0); simpl; lia. }
  destruct (run_unfold efetch api_key web_env query_key total_records
              record_limit batch_size dry_run ltac:(lia)) as (starts & _ & ->).
  destruct (batches_rule efetch api_key web_env query_key total_records
              record_limit batch_size dry_run
              (fun _ st => record_count st <= pbar_n st /\
                           record_count st <= target)
              (fun _ _ => True))
    with (starts := starts) (st := init) as (f & Hf & Hpost).
  - intros s rest st [Hbar Hc] _.
    pose proof (payload_length_bounded efetch api_key web_env query_key
                  total_records record_limit batch_size st s Hb Hbs Hc)
      as Hlen.
    unfold completed, pbar_n. cbn [record_count pbar].
    fold (payload efetch api_key web_env query_key total_records record_limit
                  batch_size st s).
    rewrite sum_snoc. fold (pbar_n st).
    unfold current_batch_size in Hlen |- *. fold target in Hlen |- *. lia.
  - auto.
  - split; [reflexivity|exact Htarget].
  - exists f. split; [exact Hf|]. intros st ->. apply Hpost.
Qed.

Lemma progress_not_behind_witness :
  exists f,
    run (SampleRun.short_server Sample.paper) "key" "env" "1" 1200 None 500
        false = Ok f /\
    (forall st, f = Next st -> record_count st <= pbar_n st).
Proof.
  apply (progress_not_behind (SampleRun.short_server Sample.paper)
           "key" "env" "1" 1200 None 500 false).
  - lia.
  - lia.
  - exact I.
  - intros p Hp. unfold articles_of, SampleRun.short_server.
    rewrite articles_of_document.
    + rewrite repeat_length.
      pose proof (Z.div_pos (p_retmax p) 2 Hp ltac:(lia)).
      pose proof (Z.div_le_upper_bound (p_retmax p) 2 (p_retmax p)
                    ltac:(lia) ltac:(lia)).
      lia.
    + apply Forall_forall. intros x Hx. apply repeat_spec in Hx.
      subst x. split; reflexivity.
Defined.
